(** * Document scanner: detection geometry, stability tracking, rectification

    A shallow embedding of the algorithmic core of the scanner:
    - [DocumentDetection] : the detection library ([sortCorners] by
      top/bottom split, returning whatever it assembles;
      [convertToGrayscale]);
    - [ImageProcessing]   : the rectification component ([cropDocumentExactly],
      [correctPerspective], its guarded copy of [sortCorners]);
    - [DocumentCameraFallback] : the upload fallback ([handleConfirm]);
    - [DocumentCamera]    : the camera component (quadrant [sortCorners],
      [evaluateDetectionQuality], the detection cycle, the auto-capture
      effect, [handleCapture], [toggleAutoMode], [detectDocumentWithCV],
      ...);
    - [DocumentScannerApp] : the application shell (its steps and handlers);
    - [DocumentPreview]   : the preview (zoom, rotation, fit to screen).

    Numbers.  A JavaScript [number] is modelled by an exact rational [Q]:
    the arithmetic below is the arithmetic of the source without rounding
    error, and the decimal literals of the source ([0.1], [1.414], ...) are
    the rationals they denote.  Counters and millisecond timestamps, which
    only ever hold integers, are modelled by [Z].  [Math.hypot] is an
    implementation-approximated host routine; it is a field of [Host] and
    every theorem holds for whichever routine the host supplies.

    State.  The component state is the record of its [useState] cells.  An
    operation reads the cells as they were committed by the last render and
    returns the record after all its setter calls, so one detection cycle,
    one run of the auto-capture effect or one click is one step. *)

From Stdlib Require Import String.
From Stdlib Require Import ZArith QArith Qabs Qround Qminmax.
From Stdlib Require Import List Bool Lia Lqa Permutation Sorted Morphisms.
Import ListNotations.

Local Open Scope Q_scope.

(** ** JavaScript primitives used by the scanner *)

Module JS.

(** [a < b] on numbers. *)
Definition ltb (a b : Q) : bool := negb (Qle_bool b a).

(** [a >= b] on numbers. *)
Definition geb (a b : Q) : bool := Qle_bool b a.

(** [a !== b] on numbers. *)
Definition neqb (a b : Q) : bool := negb (Qeq_bool a b).

(** [Math.sign]. *)
Definition Math_sign (a : Q) : Q :=
  if ltb 0 a then 1 else if ltb a 0 then -1 else 0.

(** [Math.abs]. *)
Definition Math_abs (a : Q) : Q := Qabs a.

(** [Math.round]: the nearest integer, ties going up. *)
Definition Math_round (a : Q) : Z := Qfloor (a + (1 # 2)).

(** [Math.min(...xs)] and [Math.max(...xs)] on a non-empty argument list. *)
Definition Math_min (xs : list Q) : Q :=
  match xs with
  | [] => 0
  | a :: rest => fold_left Qmin rest a
  end.

Definition Math_max (xs : list Q) : Q :=
  match xs with
  | [] => 0
  | a :: rest => fold_left Qmax rest a
  end.

(** Whether a [string | null] counts as true in a condition: it is neither
    [null] nor the empty string. *)
Definition truthy (s : option string) : bool :=
  match s with
  | Some text => negb (String.eqb text EmptyString)
  | None => false
  end.

(** What storing a number into a [Uint8ClampedArray] keeps
    ([ToUint8Clamp]): [NaN], here [None], gives 0, the number is clamped to
    0..255 and rounded to the nearest integer, ties going to the even one. *)
Definition ToUint8Clamp (v : option Q) : Z :=
  match v with
  | None => 0
  | Some number =>
      if Qle_bool number 0 then 0
      else if Qle_bool 255 number then 255
      else
        let f := Qfloor number in
        if ltb (inject_Z f + (1 # 2)) number then (f + 1)%Z
        else if ltb number (inject_Z f + (1 # 2)) then f
        else if Z.even f then f else (f + 1)%Z
  end.

(** [arr[i] = v] on a [Uint8ClampedArray]: the converted value is stored,
    and nothing is stored out of range. *)
Fixpoint store (arr : list Z) (i : nat) (v : option Q) : list Z :=
  match arr, i with
  | [], _ => []
  | _ :: rest, O => ToUint8Clamp v :: rest
  | a :: rest, S j => a :: store rest j v
  end.

Section Arrays.
Context {A : Type}.

(** [xs.reduce(f, init)]. *)
Definition reduce {B : Type} (f : B -> A -> B) (init : B) (xs : list A) : B :=
  fold_left f xs init.

(** [xs[i]], read with a default that is never reached in range. *)
Definition at_ (d : A) (xs : list A) (i : nat) : A := nth i xs d.

(** [xs.sort(compareFn)].  The language requires the sort to be stable and
    leaves the algorithm open; it is modelled by stable insertion: [a] goes
    after every [b] of the sorted rest with [compareFn(a, b) > 0]. *)
Fixpoint insert (compareFn : A -> A -> Q) (a : A) (sorted : list A) : list A :=
  match sorted with
  | [] => [a]
  | b :: rest =>
      if ltb 0 (compareFn a b) then b :: insert compareFn a rest
      else a :: b :: rest
  end.

Fixpoint sort (compareFn : A -> A -> Q) (xs : list A) : list A :=
  match xs with
  | [] => []
  | a :: rest => insert compareFn a (sort compareFn rest)
  end.

(** [a] may stand before [b] under [compareFn]. *)
Definition inOrder (compareFn : A -> A -> Q) (a b : A) : Prop := compareFn a b <= 0.
End Arrays.

End JS.

(** ** Shared data *)

(** [{ x: number; y: number }]. *)
Record Point : Type := mkPoint { x : Q; y : Q }.

Definition origin : Point := mkPoint 0 0.

(** The host routines the code calls and whose results the language leaves
    to the implementation.  The second field says that the routine depends
    on the numbers it is given, not on the fractions that denote them. *)
Class Host : Type := {
  Math_hypot : Q -> Q -> Q;
  Math_hypot_compat :: Proper (Qeq ==> Qeq ==> Qeq) Math_hypot
}.

(** A host for running the model: its [Math.hypot] is exact whenever the sum
    of the squares is the square of a rational, and rounds down on the grid
    of the denominator otherwise. *)
Definition hypotFloor (a b : Q) : Q :=
  let s := Qred (a * a + b * b) in
  Z.sqrt (Qnum s * Zpos (Qden s)) # Qden s.

Definition hypotFloor_compat : Proper (Qeq ==> Qeq ==> Qeq) hypotFloor.
Proof.
  intros a a' Ha b b' Hb. unfold hypotFloor.
  replace (Qred (a' * a' + b' * b')) with (Qred (a * a + b * b)).
  - reflexivity.
  - apply Qred_complete. now rewrite Ha, Hb.
Defined.

Definition floorHost : Host :=
  {| Math_hypot := hypotFloor; Math_hypot_compat := hypotFloor_compat |}.

(** ** The detection library *)

Module DocumentDetection.

(** [sortCorners]: top/bottom split around the centre; the assembled list
    is returned whatever its length. *)
Definition sortCorners (corners : list Point) : list Point :=
  if negb (length corners =? 4)%nat then corners
  else
    let center :=
      {| x := JS.reduce (fun sum corner => sum + x corner) 0 corners
              / inject_Z (Z.of_nat (length corners));
         y := JS.reduce (fun sum corner => sum + y corner) 0 corners
              / inject_Z (Z.of_nat (length corners)) |} in
    let top := filter (fun corner => JS.ltb (y corner) (y center)) corners in
    let bottom := filter (fun corner => JS.geb (y corner) (y center)) corners in
    let topSorted := JS.sort (fun a b => x a - x b) top in
    let bottomSorted := JS.sort (fun a b => x a - x b) bottom in
    (if (0 <? length topSorted)%nat then [JS.at_ origin topSorted 0] else [])
    ++ (if (1 <? length topSorted)%nat
        then [JS.at_ origin topSorted (length topSorted - 1)] else [])
    ++ (if (0 <? length bottomSorted)%nat
        then [JS.at_ origin bottomSorted (length bottomSorted - 1)] else [])
    ++ (if (1 <? length bottomSorted)%nat
        then [JS.at_ origin bottomSorted 0] else []).

(** An [ImageData]: its size and its bytes, four to a pixel. *)
Record ImageData : Type := mkImageData {
  width : Z;
  height : Z;
  data : list Z
}.

(** [new Uint8ClampedArray(length)]: zeros; a negative length throws. *)
Definition newUint8ClampedArray (length : Z) : option (list Z) :=
  if (length <? 0)%Z then None else Some (repeat 0%Z (Z.to_nat length)).

(** [new ImageData(data, sw, sh)], which throws, here [None], on a zero
    side, on data that is empty or not a whole number of pixels, and on data
    that is not [sw] by [sh] pixels. *)
Definition newImageData (data : list Z) (sw sh : Z) : option ImageData :=
  let length := Z.of_nat (length data) in
  if (sw =? 0)%Z || (sh =? 0)%Z then None
  else if (length =? 0)%Z || negb (length mod 4 =? 0)%Z then None
  else if negb ((length / 4) mod sw =? 0)%Z then None
  else if negb ((length / 4) / sw =? sh)%Z then None
  else Some (mkImageData sw sh data).

(** [0.299 * r + 0.587 * g + 0.114 * b], where a byte read out of range is
    [undefined] and makes the sum [NaN]. *)
Definition luminance (r g b : option Z) : option Q :=
  match r, g, b with
  | Some r, Some g, Some b =>
      Some (0.299 * inject_Z r + 0.587 * inject_Z g + 0.114 * inject_Z b)
  | _, _, _ => None
  end.

(** The values [i] takes in [for (let i = 0; i < length; i += 4)]. *)
Definition pixelOffsets (length : nat) : list nat :=
  map (fun k => (4 * k)%nat) (seq 0 ((length + 3) / 4)).

(** [convertToGrayscale]. *)
Definition convertToGrayscale (imageData : ImageData) : option ImageData :=
  let width := width imageData in
  let height := height imageData in
  let data := data imageData in
  match newUint8ClampedArray (width * height * 4) with
  | None => None
  | Some grayscaleData =>
      let grayscaleData :=
        fold_left
          (fun grayscaleData i =>
             let r := nth_error data i in
             let g := nth_error data (i + 1) in
             let b := nth_error data (i + 2) in
             let a := nth_error data (i + 3) in
             let gray := luminance r g b in
             let grayscaleData := JS.store grayscaleData i gray in
             let grayscaleData := JS.store grayscaleData (i + 1) gray in
             let grayscaleData := JS.store grayscaleData (i + 2) gray in
             JS.store grayscaleData (i + 3) (option_map inject_Z a))
          (pixelOffsets (length data)) grayscaleData in
      newImageData grayscaleData width height
  end.

(** The stages that only pass their argument on. *)
Definition applyGaussianBlur (imageData : ImageData) : ImageData := imageData.

Definition applyCannyEdgeDetection (imageData : ImageData) : ImageData := imageData.

End DocumentDetection.

(** ** The rectification component *)

Module ImageProcessing.

(** The local constant [sortedCorners] of [sortCorners]: the list
    assembled from the two sorted halves. *)
Definition sortedCorners (corners : list Point) : list Point :=
  let center :=
    {| x := JS.reduce (fun sum corner => sum + x corner) 0 corners
            / inject_Z (Z.of_nat (length corners));
       y := JS.reduce (fun sum corner => sum + y corner) 0 corners
            / inject_Z (Z.of_nat (length corners)) |} in
  let top := filter (fun corner => JS.ltb (y corner) (y center)) corners in
  let bottom := filter (fun corner => JS.geb (y corner) (y center)) corners in
  let topSorted := JS.sort (fun a b => x a - x b) top in
  let bottomSorted := JS.sort (fun a b => x a - x b) bottom in
  (if (0 <? length topSorted)%nat then [JS.at_ origin topSorted 0] else [])
  ++ (if (1 <? length topSorted)%nat
      then [JS.at_ origin topSorted (length topSorted - 1)] else [])
  ++ (if (0 <? length bottomSorted)%nat
      then [JS.at_ origin bottomSorted (length bottomSorted - 1)] else [])
  ++ (if (1 <? length bottomSorted)%nat
      then [JS.at_ origin bottomSorted 0] else []).

(** [sortCorners]: the same split, falling back to the input when the
    assembled list does not have four entries. *)
Definition sortCorners (corners : list Point) : list Point :=
  if negb (length corners =? 4)%nat then corners
  else
    if (length (sortedCorners corners) =? 4)%nat
    then sortedCorners corners else corners.

(** The size of the crop taken by [cropDocumentExactly]:
    [(cropWidth, cropHeight)] of the bounding box of the sorted corners. *)
Definition cropSize (corners : list Point) : Q * Q :=
  let sortedCorners := sortCorners corners in
  let minX := JS.Math_min (map x sortedCorners) in
  let minY := JS.Math_min (map y sortedCorners) in
  let maxX := JS.Math_max (map x sortedCorners) in
  let maxY := JS.Math_max (map y sortedCorners) in
  let cropWidth := maxX - minX in
  let cropHeight := maxY - minY in
  (cropWidth, cropHeight).

(** A decoded image, by its pixel size ([img.width], [img.height]). *)
Record Image : Type := mkImage { width : Z; height : Z }.

(** The output size chosen by [correctPerspective]. *)
Definition outputSize (img : Image) : Image :=
  let aspectRatio := inject_Z (width img) / inject_Z (height img) in
  if (height img >? width img)%Z then
    let outputWidth := 1240%Z in
    let outputHeight := JS.Math_round (inject_Z outputWidth / aspectRatio) in
    {| width := outputWidth; height := outputHeight |}
  else
    let outputHeight := 1240%Z in
    let outputWidth := JS.Math_round (inject_Z outputHeight * aspectRatio) in
    {| width := outputWidth; height := outputHeight |}.

(** [correctPerspective], on sizes: without an output canvas or a drawing
    context the cropped image is returned as it is. *)
Definition correctPerspective (outputCanvas outputCtx : bool) (img : Image) : Image :=
  if negb outputCanvas then img
  else if negb outputCtx then img
  else outputSize img.

(** The rectangle [cropDocumentExactly] copies out of the image:
    [(minX, minY, cropWidth, cropHeight)], the arguments of its
    [drawImage]. *)
Definition cropRectangle (corners : list Point) : Q * Q * Q * Q :=
  let sortedCorners := sortCorners corners in
  let minX := JS.Math_min (map x sortedCorners) in
  let minY := JS.Math_min (map y sortedCorners) in
  let maxX := JS.Math_max (map x sortedCorners) in
  let maxY := JS.Math_max (map y sortedCorners) in
  let cropWidth := maxX - minX in
  let cropHeight := maxY - minY in
  (minX, minY, cropWidth, cropHeight).

(** Where [correctPerspective] draws the image on the output canvas: the
    destination arguments [(x, y, img.width * scale, img.height * scale)] of
    its [drawImage]. *)
Definition drawDestination (img : Image) : Q * Q * Q * Q :=
  let outputWidth := inject_Z (width (outputSize img)) in
  let outputHeight := inject_Z (height (outputSize img)) in
  let scale :=
    JS.Math_min [outputWidth / inject_Z (width img);
                 outputHeight / inject_Z (height img)] in
  let x := (outputWidth - inject_Z (width img) * scale) / 2 in
  let y := (outputHeight - inject_Z (height img) * scale) / 2 in
  (x, y, inject_Z (width img) * scale, inject_Z (height img) * scale).

End ImageProcessing.

(** ** The upload fallback *)

Module DocumentCameraFallback.

(** [handleConfirm], with the image decoded from [selectedImage]: what is
    passed to [onCapture], if anything. *)
Definition handleConfirm (selectedImage : option string) (img : ImageProcessing.Image)
  : option (string * list Point) :=
  match selectedImage with
  | Some uri =>
      if negb (JS.truthy selectedImage) then None
      else
        let width := inject_Z (ImageProcessing.width img) in
        let height := inject_Z (ImageProcessing.height img) in
        let docWidth := width * 0.7 in
        let docHeight := height * 0.7 in
        let left := (width - docWidth) / 2 in
        let top := (height - docHeight) / 2 in
        let right := left + docWidth in
        let bottom := top + docHeight in
        let corners :=
          [ {| x := left; y := top |};
            {| x := right; y := top |};
            {| x := right; y := bottom |};
            {| x := left; y := bottom |} ] in
        Some (uri, corners)
  | None => None
  end.

End DocumentCameraFallback.

(** ** The camera component *)

Module DocumentCamera.

(** The video element behind [videoRef.current], by its frame size. *)
Record Video : Type := mkVideo { videoWidth : Z; videoHeight : Z }.

(** The result of [calculateQuadrilateralDimensions]. *)
Record Dimensions : Type := mkDimensions { width : Q; height : Q }.

(** *** Geometry *)

Section Geometry.
Context {host : Host}.

(** [getQuadrant]. *)
Definition getQuadrant (point center : Point) : Q :=
  if JS.ltb (x point) (x center) && JS.ltb (y point) (y center) then 0
  else if JS.geb (x point) (x center) && JS.ltb (y point) (y center) then 1
  else if JS.geb (x point) (x center) && JS.geb (y point) (y center) then 2
  else 3.

(** The comparator handed to [corners.sort] by [sortCorners]. *)
Definition compareCorners (center a b : Point) : Q :=
  let aQuadrant := getQuadrant a center in
  let bQuadrant := getQuadrant b center in
  if JS.neqb aQuadrant bQuadrant then aQuadrant - bQuadrant
  else
    let aDist := Math_hypot (x a - x center) (y a - y center) in
    let bDist := Math_hypot (x b - x center) (y b - y center) in
    bDist - aDist.

(** [sortCorners]: by quadrant around the centre, then by decreasing
    distance from it. *)
Definition sortCorners (corners : list Point) : list Point :=
  if negb (length corners =? 4)%nat then corners
  else
    let center :=
      {| x := JS.reduce (fun sum corner => sum + x corner) 0 corners
              / inject_Z (Z.of_nat (length corners));
         y := JS.reduce (fun sum corner => sum + y corner) 0 corners
              / inject_Z (Z.of_nat (length corners)) |} in
    JS.sort (compareCorners center) corners.

(** [calculateQuadrilateralArea]: the shoelace loop. *)
Definition calculateQuadrilateralArea (corners : list Point) : Q :=
  let area :=
    fold_left
      (fun area i =>
         let j := ((i + 1) mod length corners)%nat in
         let area := area + x (JS.at_ origin corners i) * y (JS.at_ origin corners j) in
         area - x (JS.at_ origin corners j) * y (JS.at_ origin corners i))
      (seq 0 (length corners)) 0 in
  JS.Math_abs area / 2.

(** [calculateQuadrilateralDimensions]. *)
Definition calculateQuadrilateralDimensions (corners : list Point) : Dimensions :=
  let c := JS.at_ origin corners in
  let width1 := Math_hypot (x (c 1%nat) - x (c 0%nat)) (y (c 1%nat) - y (c 0%nat)) in
  let width2 := Math_hypot (x (c 2%nat) - x (c 3%nat)) (y (c 2%nat) - y (c 3%nat)) in
  let height1 := Math_hypot (x (c 3%nat) - x (c 0%nat)) (y (c 3%nat) - y (c 0%nat)) in
  let height2 := Math_hypot (x (c 2%nat) - x (c 1%nat)) (y (c 2%nat) - y (c 1%nat)) in
  {| width := (width1 + width2) / 2; height := (height1 + height2) / 2 |}.

(** The cross product computed at index [i] by [isConvexQuadrilateral]. *)
Definition crossAt (corners : list Point) (i : nat) : Q :=
  let j := ((i + 1) mod length corners)%nat in
  let k := ((i + 2) mod length corners)%nat in
  let dx1 := x (JS.at_ origin corners j) - x (JS.at_ origin corners i) in
  let dy1 := y (JS.at_ origin corners j) - y (JS.at_ origin corners i) in
  let dx2 := x (JS.at_ origin corners k) - x (JS.at_ origin corners j) in
  let dy2 := y (JS.at_ origin corners k) - y (JS.at_ origin corners j) in
  dx1 * dy2 - dy1 * dx2.

(** The [for] loop of [isConvexQuadrilateral] over the remaining indices,
    [sign] being the loop variable. *)
Fixpoint convexLoop (corners : list Point) (indices : list nat) (sign : Q) : bool :=
  match indices with
  | [] => true
  | i :: rest =>
      let cross := crossAt corners i in
      if (i =? 0)%nat then convexLoop corners rest (JS.Math_sign cross)
      else if JS.neqb (JS.Math_sign cross) sign then false
      else convexLoop corners rest sign
  end.

(** [isConvexQuadrilateral]. *)
Definition isConvexQuadrilateral (corners : list Point) : bool :=
  if negb (length corners =? 4)%nat then false
  else
    let sign := 0 in
    convexLoop corners (seq 0 (length corners)) sign.

(** [evaluateDetectionQuality]. *)
Definition evaluateDetectionQuality
    (videoRef : option Video) (corners : list Point) : bool :=
  match videoRef with
  | None => false
  | Some video =>
      if negb (length corners =? 4)%nat then false
      else
        let screenArea := inject_Z (videoWidth video) * inject_Z (videoHeight video) in
        let area := calculateQuadrilateralArea corners in
        let areaRatio := area / screenArea in
        let dims := calculateQuadrilateralDimensions corners in
        let aspectRatio := width dims / height dims in
        let idealA4Ratio := 1 / 1.414 in
        let aspectRatioTolerance := 0.3 in
        let isA4Ratio :=
          JS.ltb (JS.Math_abs (aspectRatio - idealA4Ratio)) aspectRatioTolerance
          || JS.ltb (JS.Math_abs (aspectRatio - 1.414)) aspectRatioTolerance in
        let isConvex := isConvexQuadrilateral corners in
        JS.ltb 0.1 areaRatio && JS.ltb areaRatio 0.9 && isA4Ratio && isConvex
  end.
End Geometry.

(** *** Component state *)

(** The [useState] cells of the component that detection, tracking and
    capture read or write. *)
Record State : Type := mkState {
  detectedCorners : option (list Point);
  isGoodDetection : bool;
  stableDetectionCount : Z;
  autoCapturing : bool;
  autoMode : bool;
  lastGoodDetectionTime : Z;
  consecutiveGoodDetections : Z;
  showGuide : bool
}.

(** The values given to [useState]. *)
Definition initialState : State :=
  {| detectedCorners := None;
     isGoodDetection := false;
     stableDetectionCount := 0;
     autoCapturing := false;
     autoMode := true;
     lastGoodDetectionTime := 0;
     consecutiveGoodDetections := 0;
     showGuide := true |}.

(** What a state setter is called with: a value, or an updater
    [(prev) => ...] applied to the latest value. *)
Inductive SetStateAction (A : Type) : Type :=
| value (v : A)
| updater (f : A -> A).
Arguments value {A} v.
Arguments updater {A} f.

Definition resolve {A : Type} (action : SetStateAction A) (prev : A) : A :=
  match action with
  | value v => v
  | updater f => f prev
  end.

Definition setDetectedCorners (v : option (list Point)) (s : State) : State :=
  mkState v (isGoodDetection s) (stableDetectionCount s) (autoCapturing s)
    (autoMode s) (lastGoodDetectionTime s) (consecutiveGoodDetections s) (showGuide s).

Definition setIsGoodDetection (v : bool) (s : State) : State :=
  mkState (detectedCorners s) v (stableDetectionCount s) (autoCapturing s)
    (autoMode s) (lastGoodDetectionTime s) (consecutiveGoodDetections s) (showGuide s).

Definition setStableDetectionCount (action : SetStateAction Z) (s : State) : State :=
  mkState (detectedCorners s) (isGoodDetection s)
    (resolve action (stableDetectionCount s))
    (autoCapturing s) (autoMode s) (lastGoodDetectionTime s)
    (consecutiveGoodDetections s) (showGuide s).

Definition setAutoCapturing (v : bool) (s : State) : State :=
  mkState (detectedCorners s) (isGoodDetection s) (stableDetectionCount s) v
    (autoMode s) (lastGoodDetectionTime s) (consecutiveGoodDetections s) (showGuide s).

Definition setAutoMode (v : bool) (s : State) : State :=
  mkState (detectedCorners s) (isGoodDetection s) (stableDetectionCount s)
    (autoCapturing s) v (lastGoodDetectionTime s) (consecutiveGoodDetections s)
    (showGuide s).

Definition setLastGoodDetectionTime (v : Z) (s : State) : State :=
  mkState (detectedCorners s) (isGoodDetection s) (stableDetectionCount s)
    (autoCapturing s) (autoMode s) v (consecutiveGoodDetections s) (showGuide s).

Definition setConsecutiveGoodDetections (action : SetStateAction Z) (s : State) : State :=
  mkState (detectedCorners s) (isGoodDetection s) (stableDetectionCount s)
    (autoCapturing s) (autoMode s) (lastGoodDetectionTime s)
    (resolve action (consecutiveGoodDetections s)) (showGuide s).

Definition setShowGuide (v : bool) (s : State) : State :=
  mkState (detectedCorners s) (isGoodDetection s) (stableDetectionCount s)
    (autoCapturing s) (autoMode s) (lastGoodDetectionTime s)
    (consecutiveGoodDetections s) v.

(** The DOM objects behind the refs: the video element, whether the
    capture canvas is mounted and whether it yields a 2d context. *)
Record Refs : Type := mkRefs {
  videoRef : option Video;
  canvasRef : bool;
  canvasContext : bool
}.

(** *** Detection cycle, auto-capture, capture, toggles *)

Section Operations.
Context {host : Host}.

(** [simulateDocumentDetection]. *)
Definition simulateDocumentDetection (refs : Refs) (s : State) : State :=
  match videoRef refs with
  | None => s
  | Some video =>
      let videoWidth := inject_Z (videoWidth video) in
      let videoHeight := inject_Z (videoHeight video) in
      let centerX := videoWidth / 2 in
      let centerY := videoHeight / 2 in
      let aspectRatio := 1.414 in
      let '(docWidth, docHeight) :=
        if JS.ltb videoHeight videoWidth then
          let docHeight := videoHeight * 0.7 in
          (docHeight / aspectRatio, docHeight)
        else
          let docWidth := videoWidth * 0.7 in
          (docWidth, docWidth * aspectRatio) in
      let corners :=
        [ {| x := centerX - docWidth / 2; y := centerY - docHeight / 2 |};
          {| x := centerX + docWidth / 2; y := centerY - docHeight / 2 |};
          {| x := centerX + docWidth / 2; y := centerY + docHeight / 2 |};
          {| x := centerX - docWidth / 2; y := centerY + docHeight / 2 |} ] in
      setStableDetectionCount (value 15%Z)
        (setIsGoodDetection true (setDetectedCorners (Some corners) s))
  end.

(** The branch of a cycle taken when no four-corner document came back. *)
Definition noDocument (s : State) : State :=
  let s1 := setConsecutiveGoodDetections (value 0%Z) s in
  let s2 := setStableDetectionCount (updater (fun prev => Z.max (prev - 1) 0)) s1 in
  if (stableDetectionCount s <=? 3)%Z then
    let s3 := setIsGoodDetection false (setDetectedCorners None s2) in
    if negb (showGuide s) then setShowGuide true s3 else s3
  else s2.

(** One processing cycle of [detectDocument] (the body of its [try]):
    [detected] is what [detectDocumentWithCV()] returned and [now] is
    [Date.now()]; the values the closure reads are those of [s]. *)
Definition detectDocument
    (refs : Refs) (detected : option (list Point)) (now : Z) (s : State) : State :=
  match detected with
  | Some corners =>
      if (length corners =? 4)%nat then
        let s1 := setDetectedCorners (Some corners) s in
        let isGood := evaluateDetectionQuality (videoRef refs) corners in
        let s2 := setIsGoodDetection isGood s1 in
        if isGood then
          let s3 :=
            if (now - lastGoodDetectionTime s <? 300)%Z
            then setConsecutiveGoodDetections (updater (fun prev => prev + 1)%Z) s2
            else setConsecutiveGoodDetections (value 1%Z) s2 in
          let s4 := setLastGoodDetectionTime now s3 in
          let s5 := setStableDetectionCount (updater (fun prev => Z.min (prev + 1) 20)) s4 in
          if showGuide s then setShowGuide false s5 else s5
        else
          let s3 := setConsecutiveGoodDetections (value 0%Z) s2 in
          setStableDetectionCount (updater (fun prev => Z.max (prev - 1) 0)) s3
      else noDocument s
  | None => noDocument s
  end.

(** The auto-capture effect: the new state and, when it fires, the delay
    in milliseconds after which [handleCapture] is called. *)
Definition autoCaptureEffect (s : State) : State * option Z :=
  if autoMode s && (3 <=? consecutiveGoodDetections s)%Z && negb (autoCapturing s)
  then (setAutoCapturing true s, Some 200%Z)
  else if autoMode s && (10 <=? stableDetectionCount s)%Z && negb (autoCapturing s)
  then (setAutoCapturing true s, Some 300%Z)
  else (s, None).

(** [handleCapture]: what is passed to [onCapture], if anything;
    [imageUri] is the data URL the canvas gives for the current frame. *)
Definition handleCapture
    (refs : Refs) (imageUri : string) (s : State)
  : State * option (string * list Point) :=
  match videoRef refs, canvasRef refs, detectedCorners s with
  | Some _, true, Some corners =>
      if negb (canvasContext refs) then (s, None)
      else (s, Some (imageUri, corners))
  | _, _, _ => (s, None)
  end.

(** [toggleAutoMode]. *)
Definition toggleAutoMode (s : State) : State :=
  let s1 := setAutoMode (negb (autoMode s)) s in
  let s2 := setStableDetectionCount (value 0%Z) s1 in
  setConsecutiveGoodDetections (value 0%Z) s2.

(** The two ways a capture starts: the capture button calls
    [handleCapture]; the effect sets [autoCapturing] and calls it from a
    timer. *)
Definition manualCapture (refs : Refs) (imageUri : string) (s : State)
  : State * option (string * list Point) :=
  handleCapture refs imageUri s.

Definition autoCapture (refs : Refs) (imageUri : string) (s : State)
  : State * option (string * list Point) :=
  match autoCaptureEffect s with
  | (s', Some _) => handleCapture refs imageUri s'
  | (s', None) => (s', None)
  end.

(** The [isGood] flag of a cycle's sample: four corners came back and
    they pass [evaluateDetectionQuality]. *)
Definition goodDetection (refs : Refs) (detected : option (list Point)) : bool :=
  match detected with
  | Some corners =>
      (length corners =? 4)%nat && evaluateDetectionQuality (videoRef refs) corners
  | None => false
  end.

(** Whether the auto-capture effect schedules a capture. *)
Definition fires (s : State) : bool :=
  match snd (autoCaptureEffect s) with
  | Some _ => true
  | None => false
  end.

(** The [disabled] attribute of the capture button. *)
Definition captureButtonDisabled (s : State) : bool :=
  negb (isGoodDetection s) || autoCapturing s.

(** A contour found by OpenCV, by what the code asks of it: its
    [cv.contourArea] and the polygon [cv.approxPolyDP] makes of it at 2 % of
    its perimeter ([approx.rows] is the number of its points, [approx.data32S]
    holds their coordinates). *)
Record Contour : Type := mkContour { contourArea : Q; approx : list Point }.

(** What [detectDocumentWithCV] needs beside the video element: the
    processing canvas, its 2d context and the loaded [window.cv]. *)
Record Vision : Type := mkVision {
  processingCanvasRef : bool;
  processingContext : bool;
  cv : bool
}.

(** The loop of [detectDocumentWithCV] over the contours:
    [(maxArea, maxContourIndex)] when it ends. *)
Definition largestQuadrilateral (minArea : Q) (contours : list Contour) : Q * Z :=
  fold_left
    (fun acc i =>
       let '(maxArea, maxContourIndex) := acc in
       let contour := nth i contours (mkContour 0 []) in
       let area := contourArea contour in
       if JS.ltb minArea area then
         if (length (approx contour) =? 4)%nat && JS.ltb maxArea area
         then (area, Z.of_nat i)
         else (maxArea, maxContourIndex)
       else (maxArea, maxContourIndex))
    (seq 0 (length contours)) (0, (-1)%Z).

(** [detectDocumentWithCV], from the contours OpenCV finds in the frame.
    An exception raised by OpenCV is caught and gives [null]; the runs
    modelled are those in which it raises none. *)
Definition detectDocumentWithCV
    (refs : Refs) (vision : Vision) (contours : list Contour) : option (list Point) :=
  match videoRef refs with
  | None => None
  | Some video =>
      if negb (processingCanvasRef vision) || negb (cv vision) then None
      else if negb (processingContext vision) then None
      else
        let minArea :=
          inject_Z (videoWidth video) * inject_Z (videoHeight video) * 0.02 in
        let '(maxArea, maxContourIndex) := largestQuadrilateral minArea contours in
        if negb (maxContourIndex =? -1)%Z then
          let contour := nth (Z.to_nat maxContourIndex) contours (mkContour 0 []) in
          let corners := map (fun i => JS.at_ origin (approx contour) i) (seq 0 4) in
          let sortedCorners := sortCorners corners in
          Some sortedCorners
        else None
  end.

(** [handleFileChange]: the upload inside the camera component.  [file] is
    the chosen file, if any, as the data URL read from it and the image
    decoded from that; the result is what is passed to [onCapture]. *)
Definition handleFileChange (file : option (string * ImageProcessing.Image))
  : option (string * list Point) :=
  match file with
  | None => None
  | Some (imageDataUrl, img) =>
      let width := inject_Z (ImageProcessing.width img) in
      let height := inject_Z (ImageProcessing.height img) in
      let docWidth := width * 0.7 in
      let docHeight := height * 0.7 in
      let left := (width - docWidth) / 2 in
      let top := (height - docHeight) / 2 in
      let right := left + docWidth in
      let bottom := top + docHeight in
      let corners :=
        [ {| x := left; y := top |};
          {| x := right; y := top |};
          {| x := right; y := bottom |};
          {| x := left; y := bottom |} ] in
      Some (imageDataUrl, corners)
  end.

(** What can happen to the component between two renders. *)
Inductive Event : Type :=
| Cycle (detected : option (list Point)) (now : Z)
| Effect
| Capture (imageUri : string)
| ToggleAutoMode
| Simulate.

Definition step (refs : Refs) (e : Event) (s : State) : State :=
  match e with
  | Cycle detected now => detectDocument refs detected now s
  | Effect => fst (autoCaptureEffect s)
  | Capture imageUri => fst (handleCapture refs imageUri s)
  | ToggleAutoMode => toggleAutoMode s
  | Simulate => simulateDocumentDetection refs s
  end.

(** The states the component can be in. *)
Inductive reachable (refs : Refs) : State -> Prop :=
| reachable_initial : reachable refs initialState
| reachable_step e s : reachable refs s -> reachable refs (step refs e s).

(** The state after a sequence of events. *)
Definition after (refs : Refs) (events : list Event) (s : State) : State :=
  fold_left (fun s e => step refs e s) events s.

(** A run of processing cycles, the auto-capture effect running after
    each: the final state and the delays of the captures scheduled. *)
Fixpoint cycles (refs : Refs) (samples : list (option (list Point) * Z)) (s : State)
  : State * list Z :=
  match samples with
  | [] => (s, [])
  | (detected, now) :: rest =>
      let (s', fired) := autoCaptureEffect (detectDocument refs detected now s) in
      let (s'', later) := cycles refs rest s' in
      (s'', match fired with Some delay => delay :: later | None => later end)
  end.
End Operations.

End DocumentCamera.

(** ** The application shell *)

Module DocumentScannerApp.

(** The [step] cell. *)
Inductive Step : Type := initial | camera | processing | preview.

(** The [useState] cells of the application. *)
Record State : Type := mkState {
  step : Step;
  capturedImage : option string;
  processedImage : option string;
  documentCorners : option (list Point);
  cameraError : option string;
  useFallback : bool;
  isBrowserCompatible : bool
}.

Definition initialState : State :=
  {| step := initial;
     capturedImage := None;
     processedImage := None;
     documentCorners := None;
     cameraError := None;
     useFallback := false;
     isBrowserCompatible := true |}.

(** The message set when the browser has no [getUserMedia]. *)
Definition unsupportedMessage : string :=
  "Seu navegador não suporta acesso à câmera. Por favor, use um navegador moderno como Chrome, Firefox ou Safari.".

(** The effect run on mount, [isMediaDevicesSupported] being what the
    browser offers. *)
Definition checkCompatibility (isMediaDevicesSupported : bool) (s : State) : State :=
  if negb isMediaDevicesSupported then
    mkState (step s) (capturedImage s) (processedImage s) (documentCorners s)
      (Some unsupportedMessage) true isMediaDevicesSupported
  else
    mkState (step s) (capturedImage s) (processedImage s) (documentCorners s)
      (cameraError s) (useFallback s) isMediaDevicesSupported.

Definition handleCameraError (error : string) (s : State) : State :=
  mkState (step s) (capturedImage s) (processedImage s) (documentCorners s)
    (Some error) true (isBrowserCompatible s).

Definition handleFallbackCancel (s : State) : State :=
  mkState initial (capturedImage s) (processedImage s) (documentCorners s)
    (cameraError s) false (isBrowserCompatible s).

Definition handleStartScan (s : State) : State :=
  mkState camera (capturedImage s) (processedImage s) (documentCorners s)
    None
    (if negb (isBrowserCompatible s) then true else useFallback s)
    (isBrowserCompatible s).

Definition handleCapture (imageUri : string) (corners : list Point) (s : State) : State :=
  mkState processing (Some imageUri) (processedImage s) (Some corners)
    (cameraError s) (useFallback s) (isBrowserCompatible s).

Definition handleProcessingComplete (processedImageUri : string) (s : State) : State :=
  mkState preview (capturedImage s) (Some processedImageUri) (documentCorners s)
    (cameraError s) (useFallback s) (isBrowserCompatible s).

Definition handleReset (s : State) : State :=
  mkState initial None None None None false (isBrowserCompatible s).

(** The click on the retry button of the error box. *)
Definition retry (s : State) : State :=
  handleStartScan
    (mkState (step s) (capturedImage s) (processedImage s) (documentCorners s)
       None (useFallback s) (isBrowserCompatible s)).

(** What the render shows below the header: one of the five screens, or
    nothing when no condition of the JSX holds. *)
Inductive Screen : Type :=
| StartScreen | CameraScreen | FallbackScreen | ProcessingScreen | PreviewScreen | Nothing.

Definition screen (s : State) : Screen :=
  match step s with
  | initial => StartScreen
  | camera => if negb (useFallback s) then CameraScreen else FallbackScreen
  | processing =>
      match documentCorners s with
      | Some _ => if JS.truthy (capturedImage s) then ProcessingScreen else Nothing
      | None => Nothing
      end
  | preview => if JS.truthy (processedImage s) then PreviewScreen else Nothing
  end.

(** The handlers as events. *)
Inductive Event : Type :=
| Mounted (isMediaDevicesSupported : bool)
| CameraError (error : string)
| FallbackCancel
| StartScan
| Capture (imageUri : string) (corners : list Point)
| ProcessingComplete (processedImageUri : string)
| Reset
| Retry.

Definition handle (e : Event) (s : State) : State :=
  match e with
  | Mounted supported => checkCompatibility supported s
  | CameraError error => handleCameraError error s
  | FallbackCancel => handleFallbackCancel s
  | StartScan => handleStartScan s
  | Capture imageUri corners => handleCapture imageUri corners s
  | ProcessingComplete uri => handleProcessingComplete uri s
  | Reset => handleReset s
  | Retry => retry s
  end.

(** The images handed over by the components are data URLs, never the
    empty string. *)
Definition carriesImage (e : Event) : bool :=
  match e with
  | Capture imageUri _ => JS.truthy (Some imageUri)
  | ProcessingComplete uri => JS.truthy (Some uri)
  | _ => true
  end.

Definition run (events : list Event) (s : State) : State :=
  fold_left (fun s e => handle e s) events s.

End DocumentScannerApp.

(** ** The preview *)

Module DocumentPreview.

(** The [useState] cells touched by the toolbar. *)
Record State : Type := mkState {
  isFullscreen : bool;
  zoomLevel : Q;
  rotation : Z;
  fitToScreen : bool
}.

Definition initialState : State :=
  {| isFullscreen := false; zoomLevel := 1; rotation := 0; fitToScreen := true |}.

(** The layout the zoom is fitted to: the container's client size and the
    image's natural size, when the two elements are mounted. *)
Record Layout : Type := mkLayout {
  clientWidth : Z;
  clientHeight : Z;
  naturalWidth : Z;
  naturalHeight : Z
}.

(** [adjustZoom]. *)
Definition adjustZoom (layout : option Layout) (s : State) : State :=
  match layout with
  | None => s
  | Some l =>
      if negb (fitToScreen s) then s
      else if (naturalWidth l =? 0)%Z || (naturalHeight l =? 0)%Z then s
      else
        let containerWidth := inject_Z (clientWidth l) - 32 in
        let containerHeight := inject_Z (clientHeight l) - 32 in
        let widthRatio := containerWidth / inject_Z (naturalWidth l) in
        let heightRatio := containerHeight / inject_Z (naturalHeight l) in
        let newZoom := JS.Math_min [widthRatio; heightRatio; 1] in
        mkState (isFullscreen s) newZoom (rotation s) (fitToScreen s)
  end.

Definition toggleFullscreen (s : State) : State :=
  mkState (negb (isFullscreen s)) (zoomLevel s) (rotation s) true.

Definition zoomIn (s : State) : State :=
  let newZoom := JS.Math_min [zoomLevel s + 0.25; 3] in
  mkState (isFullscreen s) newZoom (rotation s) false.

Definition zoomOut (s : State) : State :=
  let newZoom := JS.Math_max [zoomLevel s - 0.25; 0.25] in
  mkState (isFullscreen s) newZoom (rotation s) false.

(** [rotate]; [%] is the remainder with the sign of the dividend. *)
Definition rotate (s : State) : State :=
  mkState (isFullscreen s) (zoomLevel s) (Z.rem (rotation s + 90) 360) (fitToScreen s).

Definition toggleFitToScreen (s : State) : State :=
  mkState (isFullscreen s) (zoomLevel s) (rotation s) (negb (fitToScreen s)).

Inductive Event : Type :=
| AdjustZoom (layout : option Layout)
| ToggleFullscreen
| ZoomIn
| ZoomOut
| Rotate
| ToggleFitToScreen.

Definition handle (e : Event) (s : State) : State :=
  match e with
  | AdjustZoom layout => adjustZoom layout s
  | ToggleFullscreen => toggleFullscreen s
  | ZoomIn => zoomIn s
  | ZoomOut => zoomOut s
  | Rotate => rotate s
  | ToggleFitToScreen => toggleFitToScreen s
  end.

Definition run (events : list Event) (s : State) : State :=
  fold_left (fun s e => handle e s) events s.

End DocumentPreview.

(** * Properties *)

Import DocumentCamera.

(** ** The acceptance rule in the words of the specification *)

(** [|sum (x_i * y_(i+1) - x_(i+1) * y_i)| / 2], indices modulo 4. *)
Definition shoelaceArea (p0 p1 p2 p3 : Point) : Q :=
  Qabs ((x p0 * y p1 - x p1 * y p0) + (x p1 * y p2 - x p2 * y p1)
        + (x p2 * y p3 - x p3 * y p2) + (x p3 * y p0 - x p0 * y p3)) / 2.

(** The mean length of the two horizontal-ish edges, first to second corner
    and fourth to third. *)
Definition averagedWidth {host : Host} (p0 p1 p2 p3 : Point) : Q :=
  (Math_hypot (x p1 - x p0) (y p1 - y p0) + Math_hypot (x p2 - x p3) (y p2 - y p3)) / 2.

(** The mean length of the two vertical-ish edges, first to fourth corner
    and second to third. *)
Definition averagedHeight {host : Host} (p0 p1 p2 p3 : Point) : Q :=
  (Math_hypot (x p3 - x p0) (y p3 - y p0) + Math_hypot (x p2 - x p1) (y p2 - y p1)) / 2.

(** ** Corner ordering in the words of the specification *)

(** The arithmetic mean of the coordinates. *)
Definition centroid (corners : list Point) : Point :=
  {| x := fold_left (fun sum corner => sum + x corner) corners 0
          / inject_Z (Z.of_nat (length corners));
     y := fold_left (fun sum corner => sum + y corner) corners 0
          / inject_Z (Z.of_nat (length corners)) |}.

(** The points above the centroid and those level with or below it. *)
Definition topHalf (corners : list Point) : list Point :=
  filter (fun corner => JS.ltb (y corner) (y (centroid corners))) corners.

Definition bottomHalf (corners : list Point) : list Point :=
  filter (fun corner => JS.geb (y corner) (y (centroid corners))) corners.

(** [[top[0], top[last], bottom[last], bottom[0]]], each entry present when
    its half is long enough. *)
Definition assemble (topSorted bottomSorted : list Point) : list Point :=
  (if (0 <? length topSorted)%nat then [JS.at_ origin topSorted 0] else [])
  ++ (if (1 <? length topSorted)%nat
      then [JS.at_ origin topSorted (length topSorted - 1)] else [])
  ++ (if (0 <? length bottomSorted)%nat
      then [JS.at_ origin bottomSorted (length bottomSorted - 1)] else [])
  ++ (if (1 <? length bottomSorted)%nat
      then [JS.at_ origin bottomSorted 0] else []).

(** The comparator [(a, b) => a.x - b.x]. *)
Definition byX (a b : Point) : Q := x a - x b.

(** Exactly two points lie in the bottom half and they have the same [x]. *)
Definition bottomTie (corners : list Point) : bool :=
  match bottomHalf corners with
  | [b0; b1] => Qeq_bool (x b0) (x b1)
  | _ => false
  end.

(** ** Runs of samples *)

(** No four-corner document came back from the detector. *)
Definition noQuad (detected : option (list Point)) : bool :=
  match detected with
  | Some corners => negb (length corners =? 4)%nat
  | None => true
  end.

(** Every sample of the run is a good detection and comes 300 ms or more
    after the good detection before it, the one before the run being at
    [last]. *)
Fixpoint spacedGood {host : Host} (refs : Refs) (last : Z)
    (samples : list (option (list Point) * Z)) : bool :=
  match samples with
  | [] => true
  | (detected, now) :: rest =>
      goodDetection refs detected && (300 <=? now - last)%Z
      && spacedGood refs now rest
  end.

(** What holds of the detection cells in every state of the component: the
    counters are in range, remembered corners are four, and corners are
    remembered whenever the stable counter is above 3 or the consecutive
    counter above 0, in which case the detection is also marked good. *)
Definition detectionInvariant (s : State) : Prop :=
  (0 <= stableDetectionCount s <= 20)%Z
  /\ (0 <= consecutiveGoodDetections s)%Z
  /\ (forall corners, detectedCorners s = Some corners -> length corners = 4%nat)
  /\ ((3 < stableDetectionCount s)%Z -> detectedCorners s <> None)
  /\ ((0 < consecutiveGoodDetections s)%Z ->
      detectedCorners s <> None /\ isGoodDetection s = true).

(** ** Candidate contours *)

(** A contour the selection loop considers: larger than the minimum area
    and approximated by four points. *)
Definition qualifies (minArea : Q) (contour : Contour) : Prop :=
  minArea < contourArea contour /\ length (approx contour) = 4%nat.

(** ** Upright rectangles *)

(** The corners of an upright rectangle, from the top left one clockwise on
    the screen. *)
Definition rectangleCorners (left top right bottom : Q) : list Point :=
  [ {| x := left; y := top |};
    {| x := right; y := top |};
    {| x := right; y := bottom |};
    {| x := left; y := bottom |} ].

(** An [ImageData] as the platform hands it out: positive sides, four
    bytes to each of its pixels. *)
Definition wellFormed (img : DocumentDetection.ImageData) : Prop :=
  (0 < DocumentDetection.width img)%Z
  /\ (0 < DocumentDetection.height img)%Z
  /\ Z.of_nat (length (DocumentDetection.data img))
     = (DocumentDetection.width img * DocumentDetection.height img * 4)%Z
  /\ Forall (fun v => (0 <= v <= 255)%Z) (DocumentDetection.data img).

(** The bytes of a list of pixels. *)
Fixpoint flatten (pixels : list (Z * Z * Z * Z)) : list Z :=
  match pixels with
  | [] => []
  | (r, g, b, a) :: rest => r :: g :: b :: a :: flatten rest
  end.

(** What the loop body stores for one pixel. *)
Definition grayPixel (pixel : Z * Z * Z * Z) : Z * Z * Z * Z :=
  let '(r, g, b, a) := pixel in
  let gray := JS.ToUint8Clamp (DocumentDetection.luminance (Some r) (Some g) (Some b)) in
  (gray, gray, gray, JS.ToUint8Clamp (Some (inject_Z a))).

(** ** Sample data *)

Definition pt (a b : Z) : Point := mkPoint (inject_Z a) (inject_Z b).

(** A 1000 x 1000 frame with every DOM object in place. *)
Definition refs1000 : Refs :=
  {| videoRef := Some (mkVideo 1000 1000); canvasRef := true; canvasContext := true |}.

(** An upright page of 500 x 707 pixels. *)
Definition page : list Point := [pt 0 0; pt 500 0; pt 500 707; pt 0 707].

(** Three good samples 100 ms apart, the effect running after each but
    the last: the component is about to capture by itself. *)
Definition readyState : State :=
  after (host := floorHost) refs1000
    [Cycle (Some page) 1000; Effect; Cycle (Some page) 1100; Effect;
     Cycle (Some page) 1200]
    initialState.

(** The same run with the effect run once more: the capture is scheduled. *)
Definition firedState : State :=
  after (host := floorHost) refs1000 [Effect] readyState.

(** The unit-ten square with its corners out of order. *)
Definition shuffledSquare : list Point := [pt 10 10; pt 0 0; pt 10 0; pt 0 10].

(** Three contours of the sample frame: the page, a speck, and a large
    triangle. *)
Definition sampleContours : list Contour :=
  [ mkContour 353500 page;
    mkContour 10 [pt 1 1; pt 4 1; pt 4 4; pt 1 4];
    mkContour 400000 [pt 0 0; pt 1000 0; pt 0 800] ].

(** Everything [detectDocumentWithCV] needs is there. *)
Definition visionReady : Vision :=
  {| processingCanvasRef := true; processingContext := true; cv := true |}.

Definition twoPixels : DocumentDetection.ImageData :=
  DocumentDetection.mkImageData 2 1 [255; 0; 0; 255; 10; 200; 31; 128]%Z.

Definition twoPixelsGray : DocumentDetection.ImageData :=
  DocumentDetection.mkImageData 2 1 [76; 76; 76; 255; 124; 124; 124; 128]%Z.

(** A container of 432 x 632 pixels around an image of 800 x 1200. *)
Definition smallContainer : DocumentPreview.Layout :=
  DocumentPreview.mkLayout 432 632 800 1200.

(** A scan from the start screen to the preview and back. *)
Definition oneScan : list DocumentScannerApp.Event :=
  [ DocumentScannerApp.StartScan;
    DocumentScannerApp.Capture "data:image/jpeg;base64,AA" page;
    DocumentScannerApp.ProcessingComplete "data:image/jpeg;base64,AA";
    DocumentScannerApp.Reset ].

(** ** The stability tracker *)

Section Tracker.
Context {host : Host}.

(** [detectDocument], read off field by field on a good sample. *)
Lemma detectDocument_good refs detected now s :
  goodDetection refs detected = true ->
  let s' := detectDocument refs detected now s in
  consecutiveGoodDetections s' =
    (if now - lastGoodDetectionTime s <? 300
     then consecutiveGoodDetections s + 1 else 1)%Z
  /\ lastGoodDetectionTime s' = now
  /\ stableDetectionCount s' = Z.min (stableDetectionCount s + 1) 20
  /\ autoCapturing s' = autoCapturing s
  /\ autoMode s' = autoMode s.
Proof.
  unfold goodDetection, detectDocument.
  destruct detected as [corners|]; [|discriminate].
  destruct (length corners =? 4)%nat; [|discriminate].
  cbn [andb]. intros ->. cbv zeta.
  destruct (now - lastGoodDetectionTime s <? 300)%Z, (showGuide s), s;
    cbn; repeat split.
Qed.

(** ... and on a bad or absent one. *)
Lemma detectDocument_bad refs detected now s :
  goodDetection refs detected = false ->
  let s' := detectDocument refs detected now s in
  consecutiveGoodDetections s' = 0%Z
  /\ lastGoodDetectionTime s' = lastGoodDetectionTime s
  /\ stableDetectionCount s' = Z.max (stableDetectionCount s - 1) 0
  /\ autoCapturing s' = autoCapturing s
  /\ autoMode s' = autoMode s.
Proof.
  unfold goodDetection, detectDocument, noDocument.
  destruct detected as [corners|].
  - destruct (length corners =? 4)%nat; cbn [andb].
    + intros ->. cbv zeta. destruct s; cbn; repeat split.
    + intros _. cbv zeta.
      destruct (stableDetectionCount s <=? 3)%Z, (showGuide s), s; cbn; repeat split.
  - intros _. cbv zeta.
    destruct (stableDetectionCount s <=? 3)%Z, (showGuide s), s; cbn; repeat split.
Qed.

(** C3.  One processing cycle of the stability tracker.  On a good
    detection the consecutive counter is incremented by one when the
    sample comes less than 300 ms after the last good one and is reset to
    one otherwise, the last good timestamp becomes the current time, and
    the stable counter is incremented, never beyond 20.  On a bad or
    absent detection the consecutive counter is reset to zero and the
    stable counter is decremented, never below zero. *)
Theorem detectDocument_stability_update refs detected now s :
  let s' := detectDocument refs detected now s in
  if goodDetection refs detected then
    (((now - lastGoodDetectionTime s < 300)%Z /\
       consecutiveGoodDetections s' = (consecutiveGoodDetections s + 1)%Z)
     \/ ((now - lastGoodDetectionTime s >= 300)%Z /\
          consecutiveGoodDetections s' = 1%Z))
    /\ lastGoodDetectionTime s' = now
    /\ stableDetectionCount s' =
         (if stableDetectionCount s + 1 <=? 20
          then stableDetectionCount s + 1 else 20)%Z
  else
    consecutiveGoodDetections s' = 0%Z
    /\ stableDetectionCount s' =
         (if 0 <=? stableDetectionCount s - 1
          then stableDetectionCount s - 1 else 0)%Z.
Proof.
  intros s'. destruct (goodDetection refs detected) eqn:G.
  - destruct (detectDocument_good refs detected now s G) as (C & L & S & _).
    fold s' in C, L, S. repeat split.
    + destruct (Z.ltb_spec (now - lastGoodDetectionTime s) 300); [left|right];
        split; (lia || exact C).
    + exact L.
    + rewrite S. destruct (Z.leb_spec (stableDetectionCount s + 1) 20); lia.
  - destruct (detectDocument_bad refs detected now s G) as (C & _ & S & _).
    fold s' in C, S. split; [exact C|].
    rewrite S. destruct (Z.leb_spec 0 (stableDetectionCount s - 1)); lia.
Qed.
End Tracker.

Section TrackerRuns.
Context {host : Host}.

Lemma autoCaptureEffect_quiet s :
  autoCapturing s = true \/ autoMode s = false
  \/ ((consecutiveGoodDetections s < 3)%Z /\ (stableDetectionCount s < 10)%Z) ->
  autoCaptureEffect s = (s, None).
Proof.
  unfold autoCaptureEffect. intros [E | [E | [E1 E2]]].
  - rewrite E. cbn. now rewrite !andb_false_r.
  - now rewrite E.
  - apply Z.leb_gt in E1, E2. rewrite E1, E2. now rewrite !andb_false_r.
Qed.

Lemma autoCaptureEffect_loud s :
  autoMode s = true -> autoCapturing s = false ->
  (3 <= consecutiveGoodDetections s \/ 10 <= stableDetectionCount s)%Z ->
  exists delay, autoCaptureEffect s = (setAutoCapturing true s, Some delay).
Proof.
  unfold autoCaptureEffect. intros -> -> [E | E]; cbn.
  - apply Z.leb_le in E. rewrite E. cbn. now exists 200%Z.
  - apply Z.leb_le in E. rewrite E. cbn.
    destruct (3 <=? consecutiveGoodDetections s)%Z; [now exists 200%Z | now exists 300%Z].
Qed.

Lemma detectDocument_flags refs detected now s :
  autoCapturing (detectDocument refs detected now s) = autoCapturing s
  /\ autoMode (detectDocument refs detected now s) = autoMode s.
Proof.
  destruct (goodDetection refs detected) eqn:G.
  - now destruct (detectDocument_good refs detected now s G) as (_ & _ & _ & A & M).
  - now destruct (detectDocument_bad refs detected now s G) as (_ & _ & _ & A & M).
Qed.

(** Once [autoCapturing] is set, no run of cycles schedules a capture. *)
Lemma cycles_suppressed refs samples :
  forall s, autoCapturing s = true ->
       snd (cycles refs samples s) = [] /\ autoCapturing (fst (cycles refs samples s)) = true.
Proof.
  induction samples as [|[detected now] rest IH]; intros s A; [now split|].
  cbn [cycles].
  destruct (detectDocument_flags refs detected now s) as [A' _].
  rewrite autoCaptureEffect_quiet by (left; congruence).
  assert (A'' : autoCapturing (detectDocument refs detected now s) = true) by congruence.
  specialize (IH (detectDocument refs detected now s) A'').
  destruct (cycles refs rest (detectDocument refs detected now s)) as [s'' later].
  exact IH.
Qed.

Lemma cycles_app refs samples more s :
  cycles refs (samples ++ more) s =
  (fst (cycles refs more (fst (cycles refs samples s))),
   snd (cycles refs samples s) ++ snd (cycles refs more (fst (cycles refs samples s)))).
Proof.
  revert s. induction samples as [|[detected now] rest IH]; intros s.
  - cbn. now destruct (cycles refs more s).
  - cbn [cycles app].
    destruct (autoCaptureEffect (detectDocument refs detected now s)) as [s' fired].
    rewrite IH. destruct (cycles refs rest s') as [s'' later]. cbn [fst snd].
    now destruct fired.
Qed.

(** No operation of the component clears [autoCapturing]. *)
Lemma step_keeps_autoCapturing refs e s :
  autoCapturing s = true -> autoCapturing (step refs e s) = true.
Proof.
  intros A. destruct e as [detected now| |imageUri| |]; cbn [step].
  - now rewrite (proj1 (detectDocument_flags refs detected now s)).
  - now rewrite autoCaptureEffect_quiet by now left.
  - unfold handleCapture.
    now destruct (videoRef refs), (canvasRef refs), (detectedCorners s), (canvasContext refs).
  - destruct s; exact A.
  - unfold simulateDocumentDetection.
    destruct (videoRef refs) as [video|]; [|exact A].
    destruct (JS.ltb _ _); destruct s; exact A.
Qed.

(** C2.  With auto mode on and [autoCapturing] false the auto-capture
    effect fires, setting [autoCapturing] and scheduling the capture,
    exactly when there are at least 3 consecutive good detections or the
    stable counter is at least 10.  While [autoCapturing] is true it does
    not fire and leaves the state alone.  Hence three good samples in a row,
    each less than 300 ms after the one before, starting from zeroed
    counters, bring the consecutive counter to 3 and schedule one capture,
    and no sample after them schedules another. *)
Theorem autoCapture_fires_once refs :
  (forall s, autoMode s = true -> autoCapturing s = false ->
     (fires s = true <->
      (3 <= consecutiveGoodDetections s \/ 10 <= stableDetectionCount s)%Z)
     /\ autoCapturing (fst (autoCaptureEffect s)) = fires s)
  /\ (forall s, autoCapturing s = true ->
        fires s = false /\ fst (autoCaptureEffect s) = s)
  /\ (forall s d1 t1 d2 t2 d3 t3 later,
        autoMode s = true -> autoCapturing s = false ->
        consecutiveGoodDetections s = 0%Z ->
        (0 <= stableDetectionCount s <= 6)%Z ->
        goodDetection refs d1 = true ->
        goodDetection refs d2 = true ->
        goodDetection refs d3 = true ->
        (t2 - t1 < 300)%Z -> (t3 - t2 < 300)%Z ->
        consecutiveGoodDetections
          (fst (cycles refs [(d1, t1); (d2, t2); (d3, t3)] s)) = 3%Z
        /\ length (snd (cycles refs ([(d1, t1); (d2, t2); (d3, t3)] ++ later) s)) = 1%nat).
Proof.
  split; [|split].
  - intros s M A. unfold fires.
    destruct (Z.le_gt_cases 3 (consecutiveGoodDetections s)) as [C|C];
      [|destruct (Z.le_gt_cases 10 (stableDetectionCount s)) as [S|S]].
    + destruct (autoCaptureEffect_loud s M A (or_introl C)) as [delay ->].
      cbn. split; [tauto|]. now destruct s.
    + destruct (autoCaptureEffect_loud s M A (or_intror S)) as [delay ->].
      cbn. split; [tauto|]. now destruct s.
    + rewrite autoCaptureEffect_quiet by (right; right; lia).
      cbn. split; [|exact A]. split; [discriminate|lia].
  - intros s A. unfold fires. rewrite autoCaptureEffect_quiet by now left.
    now split.
  - intros s d1 t1 d2 t2 d3 t3 later M A C S G1 G2 G3 T2 T3.
    rewrite cycles_app. cbn [cycles fst snd].
    (* first sample *)
    destruct (detectDocument_good refs d1 t1 s G1) as (C1 & L1 & S1 & A1 & M1).
    set (s1 := detectDocument refs d1 t1 s) in *. cbv zeta in C1, L1, S1, A1, M1.
    assert (C1' : consecutiveGoodDetections s1 = 1%Z).
    { rewrite C1, C. now destruct (t1 - lastGoodDetectionTime s <? 300)%Z. }
    rewrite (autoCaptureEffect_quiet s1) by (right; right; lia).
    (* second sample *)
    destruct (detectDocument_good refs d2 t2 s1 G2) as (C2 & L2 & S2 & A2 & M2).
    set (s2 := detectDocument refs d2 t2 s1) in *. cbv zeta in C2, L2, S2, A2, M2.
    assert (C2' : consecutiveGoodDetections s2 = 2%Z).
    { rewrite C2, L1, C1'. now rewrite (proj2 (Z.ltb_lt _ _) T2). }
    rewrite (autoCaptureEffect_quiet s2) by (right; right; lia).
    (* third sample *)
    destruct (detectDocument_good refs d3 t3 s2 G3) as (C3 & L3 & S3 & A3 & M3).
    set (s3 := detectDocument refs d3 t3 s2) in *. cbv zeta in C3, L3, S3, A3, M3.
    assert (C3' : consecutiveGoodDetections s3 = 3%Z).
    { rewrite C3, L2, C2'. now rewrite (proj2 (Z.ltb_lt _ _) T3). }
    destruct (autoCaptureEffect_loud s3) as [delay ->];
      [congruence | congruence | left; lia |].
    cbn [fst snd].
    destruct (cycles_suppressed refs later (setAutoCapturing true s3)) as [Q _];
      [now destruct s3|].
    rewrite Q. split; [now destruct s3 | reflexivity].
Qed.

(** C8.  In every state the component can reach, the stable counter lies
    between 0 and 20: it starts at 0, a good cycle increments it up to 20 at
    most, a bad cycle decrements it down to 0 at least, toggling the mode
    sets it to 0 and the simulated detection sets it to 15. *)
Theorem stableDetectionCount_range refs s :
  reachable refs s -> (0 <= stableDetectionCount s <= 20)%Z.
Proof.
  induction 1 as [|e s R IH]; [cbn; lia|].
  destruct e as [detected now| |imageUri| |]; cbn [step].
  - destruct (goodDetection refs detected) eqn:G.
    + destruct (detectDocument_good refs detected now s G) as (_ & _ & S & _). lia.
    + destruct (detectDocument_bad refs detected now s G) as (_ & _ & S & _). lia.
  - unfold autoCaptureEffect.
    destruct (_ && _ && _); [now destruct s|].
    destruct (_ && _ && _); [now destruct s|exact IH].
  - unfold handleCapture.
    now destruct (videoRef refs), (canvasRef refs), (detectedCorners s), (canvasContext refs).
  - cbn. lia.
  - unfold simulateDocumentDetection.
    destruct (videoRef refs) as [video|]; [|exact IH].
    destruct (JS.ltb _ _); cbn; lia.
Qed.

(** C6, as the code has it.  Toggling the capture mode flips [autoMode] and
    zeroes both counters; [autoCapturing] and the last good timestamp are
    left as they were. *)
Theorem toggleAutoMode_resets_counters s :
  stableDetectionCount (toggleAutoMode s) = 0%Z
  /\ consecutiveGoodDetections (toggleAutoMode s) = 0%Z
  /\ autoMode (toggleAutoMode s) = negb (autoMode s)
  /\ autoCapturing (toggleAutoMode s) = autoCapturing s
  /\ lastGoodDetectionTime (toggleAutoMode s) = lastGoodDetectionTime s.
Proof. destruct s; cbn; repeat split. Qed.

End TrackerRuns.

(** ** Runs on sample data *)

Lemma reachable_after {host : Host} refs events :
  forall s, reachable refs s -> reachable refs (after refs events s).
Proof.
  induction events as [|e rest IH]; intros s R; [exact R|].
  apply (IH (step refs e s)). now constructor.
Qed.

Lemma readyState_reachable : reachable (host := floorHost) refs1000 readyState.
Proof. apply reachable_after. constructor. Qed.

Lemma firedState_reachable : reachable (host := floorHost) refs1000 firedState.
Proof. apply reachable_after. exact readyState_reachable. Qed.

(** The sample page is a good detection in the sample frame. *)
Example page_is_good :
  goodDetection (host := floorHost) refs1000 (Some page) = true.
Proof. vm_compute. reflexivity. Qed.

Lemma autoCapture_fires_once_witness :
  consecutiveGoodDetections
    (fst (cycles (host := floorHost) refs1000
            [(Some page, 1000%Z); (Some page, 1100%Z); (Some page, 1200%Z)]
            initialState)) = 3%Z
  /\ length
       (snd (cycles (host := floorHost) refs1000
               ([(Some page, 1000%Z); (Some page, 1100%Z); (Some page, 1200%Z)]
                ++ [(Some page, 1300%Z); (None, 1400%Z)])
               initialState)) = 1%nat.
Proof.
  apply (proj2 (proj2 (autoCapture_fires_once (host := floorHost) refs1000))
           initialState);
    try reflexivity; cbn; lia.
Defined.

Lemma stableDetectionCount_range_witness :
  (0 <= stableDetectionCount firedState <= 20)%Z.
Proof.
  apply (stableDetectionCount_range (host := floorHost) refs1000 firedState).
  unfold firedState, readyState, after. cbn [fold_left].
  repeat apply reachable_step. apply reachable_initial.
Defined.

(** Counterexample to C6 as the specification words it: after the
    auto-capture effect has fired, toggling the mode leaves [autoCapturing]
    set. *)
Lemma toggleAutoMode_keeps_autoCapturing :
  reachable (host := floorHost) refs1000 firedState
  /\ autoCapturing (toggleAutoMode firedState) <> false.
Proof. split; [exact firedState_reachable | vm_compute; discriminate]. Qed.



(** ** Number primitives *)

Lemma ltb_lt a b : JS.ltb a b = true <-> a < b.
Proof.
  unfold JS.ltb. rewrite negb_true_iff, <- not_true_iff_false, Qle_bool_iff.
  split; [apply Qnot_le_lt | apply Qlt_not_le].
Qed.

Lemma ltb_ge a b : JS.ltb a b = false <-> b <= a.
Proof. unfold JS.ltb. now rewrite negb_false_iff, Qle_bool_iff. Qed.

Lemma geb_le a b : JS.geb a b = true <-> b <= a.
Proof. apply Qle_bool_iff. Qed.

Lemma geb_ltb a b : JS.geb a b = negb (JS.ltb a b).
Proof. unfold JS.geb, JS.ltb. now rewrite negb_involutive. Qed.

#[global] Instance ltb_compat : Proper (Qeq ==> Qeq ==> eq) JS.ltb.
Proof.
  intros a a' Ha b b' Hb. apply eq_true_iff_eq. now rewrite !ltb_lt, Ha, Hb.
Qed.

#[global] Instance geb_compat : Proper (Qeq ==> Qeq ==> eq) JS.geb.
Proof. intros a a' Ha b b' Hb. rewrite !geb_ltb. now rewrite Ha, Hb. Qed.

#[global] Instance neqb_compat : Proper (Qeq ==> Qeq ==> eq) JS.neqb.
Proof.
  intros a a' Ha b b' Hb. unfold JS.neqb. f_equal.
  apply eq_true_iff_eq. now rewrite !Qeq_bool_iff, Ha, Hb.
Qed.

Lemma neqb_false a b : JS.neqb a b = false <-> a == b.
Proof. unfold JS.neqb. now rewrite negb_false_iff, Qeq_bool_iff. Qed.

Lemma Math_sign_zero a : JS.Math_sign a == 0 <-> a == 0.
Proof.
  unfold JS.Math_sign.
  destruct (JS.ltb 0 a) eqn:P; [apply ltb_lt in P|apply ltb_ge in P].
  - split; intros E; [discriminate E | lra].
  - destruct (JS.ltb a 0) eqn:N; [apply ltb_lt in N|apply ltb_ge in N].
    + split; intros E; [discriminate E | lra].
    + split; intros _; [lra | reflexivity].
Qed.

(** ** The detection quality evaluator *)

Section Quality.
Context {host : Host}.

(** The shoelace sum of the loop, written out for four corners. *)
Lemma calculateQuadrilateralArea_four p0 p1 p2 p3 :
  calculateQuadrilateralArea [p0; p1; p2; p3] == shoelaceArea p0 p1 p2 p3.
Proof.
  unfold shoelaceArea.
  cbv beta iota zeta delta
    [calculateQuadrilateralArea JS.Math_abs fold_left seq length JS.at_ nth
     Nat.add Nat.modulo Nat.divmod Nat.sub fst snd].
  apply Qmult_comp; [|reflexivity]. apply Qabs_wd. ring.
Qed.

Lemma calculateQuadrilateralDimensions_four p0 p1 p2 p3 :
  calculateQuadrilateralDimensions [p0; p1; p2; p3]
  = {| width := averagedWidth p0 p1 p2 p3; height := averagedHeight p0 p1 p2 p3 |}.
Proof. reflexivity. Qed.

End Quality.


(** The evaluator on the sample frame: an upright page covering a third of
    the frame is accepted, the same page at a tenth of the size is too
    small, and a strip two and a half times as wide as high is off the page
    proportions. *)
Example evaluateDetectionQuality_page :
  evaluateDetectionQuality (host := floorHost) (Some (mkVideo 1000 1000)) page = true.
Proof. vm_compute. reflexivity. Qed.

Example evaluateDetectionQuality_small :
  evaluateDetectionQuality (host := floorHost) (Some (mkVideo 1000 1000))
    [pt 0 0; pt 50 0; pt 50 71; pt 0 71] = false.
Proof. vm_compute. reflexivity. Qed.

Example evaluateDetectionQuality_strip :
  evaluateDetectionQuality (host := floorHost) (Some (mkVideo 1000 1000))
    [pt 0 0; pt 1000 0; pt 1000 400; pt 0 400] = false.
Proof. vm_compute. reflexivity. Qed.

(** ** The convexity test *)

(** With four corners the loop returns true exactly when the signs of the
    second, third and fourth cross product equal the sign of the first. *)
Lemma isConvexQuadrilateral_four p0 p1 p2 p3 :
  let corners := [p0; p1; p2; p3] in
  isConvexQuadrilateral corners = true
  <-> JS.Math_sign (crossAt corners 1) == JS.Math_sign (crossAt corners 0)
      /\ JS.Math_sign (crossAt corners 2) == JS.Math_sign (crossAt corners 0)
      /\ JS.Math_sign (crossAt corners 3) == JS.Math_sign (crossAt corners 0).
Proof.
  intros corners. unfold isConvexQuadrilateral.
  change (length corners) with 4%nat.
  cbn [Nat.eqb negb seq convexLoop].
  rewrite <- !neqb_false.
  destruct (JS.neqb (JS.Math_sign (crossAt corners 1)) _);
    destruct (JS.neqb (JS.Math_sign (crossAt corners 2)) _);
    destruct (JS.neqb (JS.Math_sign (crossAt corners 3)) _);
    intuition congruence.
Qed.

(** A zero cross product next to a non-zero one makes the test fail. *)
Lemma isConvexQuadrilateral_mixed_zero p0 p1 p2 p3 i j :
  let corners := [p0; p1; p2; p3] in
  (i < 4)%nat -> (j < 4)%nat ->
  crossAt corners i == 0 -> ~ crossAt corners j == 0 ->
  isConvexQuadrilateral corners = false.
Proof.
  intros corners Hi Hj Zi Nj.
  apply not_true_iff_false. intros C.
  apply (isConvexQuadrilateral_four p0 p1 p2 p3) in C. fold corners in C.
  destruct C as (S1 & S2 & S3).
  apply Math_sign_zero in Zi. rewrite <- Math_sign_zero in Nj.
  assert (A : forall k, (k < 4)%nat ->
            JS.Math_sign (crossAt corners k) == JS.Math_sign (crossAt corners 0)).
  { intros k Hk. destruct k as [|[|[|[|k]]]]; try assumption; [reflexivity|lia]. }
  apply Nj. rewrite (A j Hj), <- (A i Hi). exact Zi.
Qed.

(** C4, where the code departs from it.  Four corners on one line give four
    zero cross products, whose signs are all equal, and the test answers
    true. *)
Theorem isConvexQuadrilateral_accepts_collinear :
  forallb (fun i => Qeq_bool (crossAt [pt 0 0; pt 1 0; pt 2 0; pt 3 0] i) 0)
    (seq 0 4) = true
  /\ isConvexQuadrilateral [pt 0 0; pt 1 0; pt 2 0; pt 3 0] = true.
Proof. split; vm_compute; reflexivity. Qed.

(** ** Normalisation of the cropped image *)

Lemma Math_round_bounds q :
  q - (1 # 2) < inject_Z (JS.Math_round q) /\ inject_Z (JS.Math_round q) <= q + (1 # 2).
Proof.
  unfold JS.Math_round. split.
  - pose proof (Qlt_floor (q + (1 # 2))) as U.
    rewrite inject_Z_plus in U. change (inject_Z 1) with 1 in U. lra.
  - apply Qfloor_le.
Qed.

Lemma Math_round_ge (n : Z) q : inject_Z n <= q -> (n <= JS.Math_round q)%Z.
Proof.
  intros L. unfold JS.Math_round. rewrite <- (Qfloor_Z n).
  apply Qfloor_resp_le. lra.
Qed.

(** The exact long side: [1240] times the long over the short input side. *)
Lemma scaled_side (a b : Q) :
  0 < a -> a <= b -> 1240 <= 1240 * (b / a).
Proof.
  intros Pa L.
  assert (E : 1 <= b / a).
  { apply Qle_shift_div_l; [exact Pa | lra]. }
  lra.
Qed.

(** C5, as the code has it.  With the output canvas in place, a decoded
    image of positive size is normalised to an output whose shorter side is
    1240: the width for a portrait image, the height otherwise.  The other
    side is at least 1240, so the orientation follows the input, and it is
    within half a pixel of 1240 times the input's long side over its short
    side, so the aspect ratio is the input's up to rounding. *)
Theorem correctPerspective_output_size img :
  (0 < ImageProcessing.width img)%Z -> (0 < ImageProcessing.height img)%Z ->
  let out := ImageProcessing.correctPerspective true true img in
  let w := inject_Z (ImageProcessing.width img) in
  let h := inject_Z (ImageProcessing.height img) in
  Z.min (ImageProcessing.width out) (ImageProcessing.height out) = 1240%Z
  /\ if (ImageProcessing.height img >? ImageProcessing.width img)%Z
     then ImageProcessing.width out = 1240%Z
          /\ (1240 <= ImageProcessing.height out)%Z
          /\ Qabs (inject_Z (ImageProcessing.height out) - 1240 * (h / w)) <= 1 # 2
     else ImageProcessing.height out = 1240%Z
          /\ (1240 <= ImageProcessing.width out)%Z
          /\ Qabs (inject_Z (ImageProcessing.width out) - 1240 * (w / h)) <= 1 # 2.
Proof.
  intros Pw Ph out w h.
  assert (Qw : 0 < w) by (unfold w; rewrite <- (Zlt_Qlt 0); exact Pw).
  assert (Qh : 0 < h) by (unfold h; rewrite <- (Zlt_Qlt 0); exact Ph).
  unfold out, ImageProcessing.correctPerspective, ImageProcessing.outputSize.
  cbn [negb]. fold w h.
  destruct (Z.gtb_spec (ImageProcessing.height img) (ImageProcessing.width img)) as [G|G];
    cbn [ImageProcessing.width ImageProcessing.height].
  - set (q := inject_Z 1240 / (w / h)).
    assert (E : q == 1240 * (h / w)).
    { unfold q. change (inject_Z 1240) with 1240. field. split; lra. }
    assert (L : w <= h) by (unfold w, h; rewrite <- Zle_Qle; lia).
    pose proof (scaled_side w h Qw L) as S.
    assert (R : (1240 <= JS.Math_round q)%Z).
    { apply Math_round_ge. change (inject_Z 1240) with 1240. lra. }
    pose proof (Math_round_bounds q) as [B1 B2].
    repeat split; [lia | exact R |].
    apply Qabs_case; intros _; lra.
  - set (q := inject_Z 1240 * (w / h)).
    assert (E : q == 1240 * (w / h)) by reflexivity.
    assert (L : h <= w) by (unfold w, h; rewrite <- Zle_Qle; lia).
    pose proof (scaled_side h w Qh L) as S.
    assert (R : (1240 <= JS.Math_round q)%Z).
    { apply Math_round_ge. change (inject_Z 1240) with 1240. lra. }
    pose proof (Math_round_bounds q) as [B1 B2].
    repeat split; [lia | exact R |].
    apply Qabs_case; intros _; lra.
Qed.

Lemma correctPerspective_output_size_witness :
  let out := ImageProcessing.correctPerspective true true (ImageProcessing.mkImage 300 500) in
  Z.min (ImageProcessing.width out) (ImageProcessing.height out) = 1240%Z
  /\ ImageProcessing.width out = 1240%Z
     /\ (1240 <= ImageProcessing.height out)%Z
     /\ Qabs (inject_Z (ImageProcessing.height out)
              - 1240 * (inject_Z 500 / inject_Z 300)) <= 1 # 2.
Proof.
  apply (correctPerspective_output_size (ImageProcessing.mkImage 300 500));
    reflexivity.
Defined.

(** Counterexample to C5 as the specification words it, on the 200 x 100
    crop of the specification's own example: the output is 2480 x 1240, its
    longer side is 2480. *)
Lemma correctPerspective_long_side_not_1240 :
  ImageProcessing.cropSize [pt 50 50; pt 250 50; pt 250 150; pt 50 150]
    = (inject_Z 200, inject_Z 100)
  /\ ImageProcessing.correctPerspective true true (ImageProcessing.mkImage 200 100)
     = ImageProcessing.mkImage 2480 1240
  /\ Z.max
       (ImageProcessing.width
          (ImageProcessing.correctPerspective true true (ImageProcessing.mkImage 200 100)))
       (ImageProcessing.height
          (ImageProcessing.correctPerspective true true (ImageProcessing.mkImage 200 100)))
     <> 1240%Z.
Proof. split; [|split]; vm_compute; congruence. Qed.

(** ** [Array.prototype.sort] *)

Section Sorting.
Context {A : Type} (compareFn : A -> A -> Q).

Local Abbreviation inOrder := (JS.inOrder compareFn).

Lemma insert_perm a xs : Permutation (a :: xs) (JS.insert compareFn a xs).
Proof.
  induction xs as [|b rest IH]; cbn [JS.insert]; [reflexivity|].
  destruct (JS.ltb 0 (compareFn a b)); [|reflexivity].
  rewrite perm_swap. now apply perm_skip.
Qed.

Lemma sort_perm xs : Permutation xs (JS.sort compareFn xs).
Proof.
  induction xs as [|a rest IH]; cbn [JS.sort]; [reflexivity|].
  rewrite <- insert_perm. now apply perm_skip.
Qed.

Lemma sort_length xs : length (JS.sort compareFn xs) = length xs.
Proof. symmetry. apply Permutation_length, sort_perm. Qed.

Lemma insert_in_order a b rest :
  inOrder a b -> JS.insert compareFn a (b :: rest) = a :: b :: rest.
Proof.
  unfold JS.inOrder. intros O. cbn [JS.insert].
  now rewrite (proj2 (ltb_ge 0 (compareFn a b)) O).
Qed.

(** Sorting leaves a list alone whose neighbours are in order. *)
Lemma sort_fixed xs : Sorted inOrder xs -> JS.sort compareFn xs = xs.
Proof.
  induction 1 as [|a rest S IH H]; [reflexivity|].
  cbn [JS.sort]. rewrite IH.
  destruct H as [|b rest O]; [reflexivity|]. now apply insert_in_order.
Qed.

(** The comparator never claims both [a > b] and [b > a]. *)
Hypothesis compareFn_asym : forall a b, 0 < compareFn a b -> compareFn b a <= 0.

Lemma insert_sorted a xs :
  Sorted inOrder xs -> Sorted inOrder (JS.insert compareFn a xs).
Proof.
  induction 1 as [|b rest S IH H]; cbn [JS.insert]; [repeat constructor|].
  destruct (JS.ltb 0 (compareFn a b)) eqn:C.
  - apply ltb_lt in C. constructor; [exact IH|].
    destruct H as [|c rest O]; cbn [JS.insert].
    + constructor. now apply compareFn_asym.
    + destruct (JS.ltb 0 (compareFn a c)); constructor;
        [exact O | now apply compareFn_asym].
  - apply ltb_ge in C. repeat constructor; assumption.
Qed.

Lemma sort_sorted xs : Sorted inOrder (JS.sort compareFn xs).
Proof.
  induction xs as [|a rest IH]; cbn [JS.sort]; [constructor|].
  now apply insert_sorted.
Qed.

Lemma sort_idempotent xs :
  JS.sort compareFn (JS.sort compareFn xs) = JS.sort compareFn xs.
Proof. apply sort_fixed, sort_sorted. Qed.
End Sorting.

(** Comparators that agree on which results are positive sort alike. *)
Lemma sort_ext {A : Type} (f g : A -> A -> Q) xs :
  (forall a b, JS.ltb 0 (f a b) = JS.ltb 0 (g a b)) ->
  JS.sort f xs = JS.sort g xs.
Proof.
  intros E. induction xs as [|a rest IH]; cbn [JS.sort]; [reflexivity|].
  rewrite IH. generalize (JS.sort g rest). intros ys.
  induction ys as [|b ys IHys]; cbn [JS.insert]; [reflexivity|].
  now rewrite E, IHys.
Qed.

Lemma byX_asym (a b : Point) : 0 < byX a b -> byX b a <= 0.
Proof. unfold byX. lra. Qed.

(** ** The top/bottom split *)

Lemma DocumentDetection_sortCorners_unfold corners :
  DocumentDetection.sortCorners corners =
  if negb (length corners =? 4)%nat then corners
  else assemble (JS.sort byX (topHalf corners)) (JS.sort byX (bottomHalf corners)).
Proof. reflexivity. Qed.

Lemma ImageProcessing_sortedCorners_unfold corners :
  ImageProcessing.sortedCorners corners =
  assemble (JS.sort byX (topHalf corners)) (JS.sort byX (bottomHalf corners)).
Proof. reflexivity. Qed.

Lemma assemble_length ts bs :
  length (assemble ts bs) = (Nat.min 2 (length ts) + Nat.min 2 (length bs))%nat.
Proof.
  unfold assemble. rewrite !length_app.
  destruct ts as [|t0 [|t1 ts]], bs as [|b0 [|b1 bs]]; reflexivity.
Qed.

Lemma halves_length corners :
  (length (topHalf corners) + length (bottomHalf corners) = length corners)%nat.
Proof.
  unfold topHalf, bottomHalf.
  rewrite (filter_ext (fun corner => JS.geb (y corner) (y (centroid corners)))
             (fun corner => negb (JS.ltb (y corner) (y (centroid corners)))))
    by (intros corner; apply geb_ltb).
  apply (filter_length (fun corner => JS.ltb (y corner) (y (centroid corners)))).
Qed.

(** The mean of four equal ordinates is that ordinate. *)
Lemma centroid_level p0 p1 p2 p3 :
  y p0 == y p1 -> y p1 == y p2 -> y p2 == y p3 ->
  y (centroid [p0; p1; p2; p3]) == y p0.
Proof.
  intros E1 E2 E3. unfold centroid. cbn [fold_left length y].
  change (inject_Z (Z.of_nat 4)) with 4. unfold Qdiv.
  change (/ 4) with (1 # 4). lra.
Qed.

Lemma topHalf_level p0 p1 p2 p3 :
  y p0 == y p1 -> y p1 == y p2 -> y p2 == y p3 ->
  topHalf [p0; p1; p2; p3] = [].
Proof.
  intros E1 E2 E3. pose proof (centroid_level p0 p1 p2 p3 E1 E2 E3) as C.
  unfold topHalf. cbn [filter].
  assert (F : forall p, y p == y p0 -> JS.ltb (y p) (y (centroid [p0; p1; p2; p3])) = false).
  { intros p E. apply ltb_ge. lra. }
  rewrite !F; [reflexivity | lra | lra | lra | lra].
Qed.

(** C10.  Some four-point input makes the detection library's
    [sortCorners] return fewer than four points: whenever the four points
    share their [y], none lies above the centre and the result has two
    entries.  The copy in the rectification component assembles the same
    list but returns its input unchanged whenever that list does not have
    exactly four entries. *)
Theorem sortCorners_short_result :
  (exists corners,
      length corners = 4%nat /\ (length (DocumentDetection.sortCorners corners) < 4)%nat)
  /\ (forall p0 p1 p2 p3,
        y p0 == y p1 -> y p1 == y p2 -> y p2 == y p3 ->
        topHalf [p0; p1; p2; p3] = []
        /\ length (DocumentDetection.sortCorners [p0; p1; p2; p3]) = 2%nat)
  /\ (forall corners,
        length corners = 4%nat ->
        ImageProcessing.sortedCorners corners = DocumentDetection.sortCorners corners)
  /\ (forall corners,
        length (ImageProcessing.sortedCorners corners) <> 4%nat ->
        ImageProcessing.sortCorners corners = corners).
Proof.
  assert (Level : forall p0 p1 p2 p3,
             y p0 == y p1 -> y p1 == y p2 -> y p2 == y p3 ->
             topHalf [p0; p1; p2; p3] = []
             /\ length (DocumentDetection.sortCorners [p0; p1; p2; p3]) = 2%nat).
  { intros p0 p1 p2 p3 E1 E2 E3.
    pose proof (topHalf_level p0 p1 p2 p3 E1 E2 E3) as T. split; [exact T|].
    pose proof (halves_length [p0; p1; p2; p3]) as H. rewrite T in H.
    cbn [length Nat.add] in H.
    rewrite DocumentDetection_sortCorners_unfold. cbn [length Nat.eqb negb].
    rewrite assemble_length, !sort_length, T, H. reflexivity. }
  split; [|split; [exact Level|split]].
  - exists [pt 0 5; pt 10 5; pt 5 5; pt 7 5]. split; [reflexivity|].
    rewrite (proj2 (Level (pt 0 5) (pt 10 5) (pt 5 5) (pt 7 5)
                      ltac:(reflexivity) ltac:(reflexivity) ltac:(reflexivity))).
    lia.
  - intros corners L. rewrite DocumentDetection_sortCorners_unfold, L. reflexivity.
  - intros corners N. unfold ImageProcessing.sortCorners.
    destruct (negb (length corners =? 4)%nat); [reflexivity|].
    destruct (Nat.eqb_spec (length (ImageProcessing.sortedCorners corners)) 4);
      [contradiction | reflexivity].
Qed.

Lemma sortCorners_short_result_witness :
  (topHalf [pt 0 5; pt 10 5; pt 5 5; pt 7 5] = []
   /\ length (DocumentDetection.sortCorners [pt 0 5; pt 10 5; pt 5 5; pt 7 5]) = 2%nat)
  /\ ImageProcessing.sortedCorners [pt 0 5; pt 10 5; pt 5 5; pt 7 5]
     = DocumentDetection.sortCorners [pt 0 5; pt 10 5; pt 5 5; pt 7 5]
  /\ ImageProcessing.sortCorners [pt 0 5; pt 10 5; pt 5 5; pt 7 5]
     = [pt 0 5; pt 10 5; pt 5 5; pt 7 5].
Proof.
  destruct sortCorners_short_result as (_ & Level & Same & Guard).
  split; [|split].
  - apply Level; reflexivity.
  - apply Same. reflexivity.
  - apply Guard. vm_compute. lia.
Defined.

(** The two copies on four level points. *)
Example sortCorners_level_points :
  DocumentDetection.sortCorners [pt 0 5; pt 10 5; pt 5 5; pt 7 5] = [pt 10 5; pt 0 5]
  /\ ImageProcessing.sortCorners [pt 0 5; pt 10 5; pt 5 5; pt 7 5]
     = [pt 0 5; pt 10 5; pt 5 5; pt 7 5].
Proof. split; vm_compute; reflexivity. Qed.

(** ** Corner ordering applied twice *)

(** The sums behind the centre do not depend on the order of the points. *)
Lemma fold_sum_shift (f : Point -> Q) corners :
  forall a, fold_left (fun sum corner => sum + f corner) corners a
            == a + fold_left (fun sum corner => sum + f corner) corners 0.
Proof.
  induction corners as [|p rest IH]; intros a; cbn [fold_left]; [lra|].
  rewrite (IH (a + f p)), (IH (0 + f p)). lra.
Qed.

Lemma fold_sum_perm (f : Point -> Q) corners corners' :
  Permutation corners corners' ->
  fold_left (fun sum corner => sum + f corner) corners 0
  == fold_left (fun sum corner => sum + f corner) corners' 0.
Proof.
  induction 1 as [|p l l' P IH|p p' l|l l' l'' P IH P' IH']; cbn [fold_left].
  - reflexivity.
  - rewrite (fold_sum_shift f l), (fold_sum_shift f l'), IH. reflexivity.
  - rewrite (fold_sum_shift f l (0 + f p' + f p)), (fold_sum_shift f l (0 + f p + f p')).
    lra.
  - now rewrite IH.
Qed.

Lemma centroid_perm corners corners' :
  Permutation corners corners' ->
  x (centroid corners) == x (centroid corners')
  /\ y (centroid corners) == y (centroid corners').
Proof.
  intros P. unfold centroid. cbn [x y].
  rewrite (Permutation_length P).
  now rewrite (fold_sum_perm x _ _ P), (fold_sum_perm y _ _ P).
Qed.

Lemma halves_perm corners :
  Permutation corners (topHalf corners ++ bottomHalf corners).
Proof.
  unfold topHalf, bottomHalf. generalize (y (centroid corners)). intros c.
  induction corners as [|p rest IH]; cbn [filter]; [reflexivity|].
  rewrite geb_ltb. destruct (JS.ltb (y p) c); cbn [negb app].
  - now apply perm_skip.
  - now apply Permutation_cons_app.
Qed.

Section Quadrants.
Context {host : Host}.

Lemma getQuadrant_compat p c c' :
  x c == x c' -> y c == y c' -> getQuadrant p c = getQuadrant p c'.
Proof.
  intros Ex Ey. unfold getQuadrant.
  assert (Lx : JS.ltb (x p) (x c) = JS.ltb (x p) (x c')) by now rewrite Ex.
  assert (Ly : JS.ltb (y p) (y c) = JS.ltb (y p) (y c')) by now rewrite Ey.
  assert (Gx : JS.geb (x p) (x c) = JS.geb (x p) (x c')) by now rewrite Ex.
  assert (Gy : JS.geb (y p) (y c) = JS.geb (y p) (y c')) by now rewrite Ey.
  now rewrite Lx, Ly, Gx, Gy.
Qed.

Lemma compareCorners_compat c c' a b :
  x c == x c' -> y c == y c' -> compareCorners c a b == compareCorners c' a b.
Proof.
  intros Ex Ey. unfold compareCorners.
  rewrite (getQuadrant_compat a c c' Ex Ey), (getQuadrant_compat b c c' Ex Ey).
  destruct (JS.neqb _ _); [reflexivity|].
  now rewrite Ex, Ey.
Qed.

Lemma neqb_sym a b : JS.neqb a b = JS.neqb b a.
Proof.
  unfold JS.neqb. f_equal. apply eq_true_iff_eq.
  rewrite !Qeq_bool_iff. split; intros E; now symmetry.
Qed.

Lemma compareCorners_asym c a b :
  0 < compareCorners c a b -> compareCorners c b a <= 0.
Proof.
  unfold compareCorners. rewrite (neqb_sym (getQuadrant b c)).
  destruct (JS.neqb _ _); lra.
Qed.

Lemma DocumentCamera_sortCorners_unfold corners :
  DocumentCamera.sortCorners corners =
  if negb (length corners =? 4)%nat then corners
  else JS.sort (compareCorners (centroid corners)) corners.
Proof. reflexivity. Qed.

(** The quadrant sort leaves its own result alone. *)
Lemma quadrant_sort_idempotent corners :
  DocumentCamera.sortCorners (DocumentCamera.sortCorners corners)
  = DocumentCamera.sortCorners corners.
Proof.
  rewrite (DocumentCamera_sortCorners_unfold corners).
  destruct (Nat.eqb_spec (length corners) 4) as [L|L]; cbn [negb].
  - rewrite DocumentCamera_sortCorners_unfold, sort_length, L. cbn [Nat.eqb negb].
    set (c := centroid corners).
    destruct (centroid_perm _ _ (sort_perm (compareCorners c) corners)) as [Ex Ey].
    fold c in Ex, Ey.
    rewrite (sort_ext _ (compareCorners c)).
    + apply sort_idempotent. apply compareCorners_asym.
    + intros a b. apply ltb_compat; [reflexivity|].
      apply compareCorners_compat; now symmetry.
  - rewrite DocumentCamera_sortCorners_unfold.
    now rewrite (proj2 (Nat.eqb_neq _ _) L).
Qed.
End Quadrants.

(** The split applied to its own four-entry result: the two top points keep
    their places; the two bottom points keep theirs unless they share their
    [x], in which case they change places. *)
Lemma split_twice corners :
  length corners = 4%nat ->
  let r := assemble (JS.sort byX (topHalf corners)) (JS.sort byX (bottomHalf corners)) in
  length r = 4%nat ->
  exists t0 t1 b0 b1,
    r = [t0; t1; b1; b0]
    /\ assemble (JS.sort byX (topHalf r)) (JS.sort byX (bottomHalf r))
       = if bottomTie corners then [t0; t1; b0; b1] else [t0; t1; b1; b0].
Proof.
  intros L r Lr.
  pose proof (halves_length corners) as HL. rewrite L in HL.
  pose proof (halves_perm corners) as HP.
  unfold r in Lr. rewrite assemble_length, !sort_length in Lr.
  assert (LT : length (topHalf corners) = 2%nat) by lia.
  assert (LB : length (bottomHalf corners) = 2%nat) by lia.
  (* the sorted halves *)
  pose proof (sort_perm byX (topHalf corners)) as PT.
  pose proof (sort_perm byX (bottomHalf corners)) as PB.
  pose proof (sort_sorted byX byX_asym (topHalf corners)) as ST.
  pose proof (sort_sorted byX byX_asym (bottomHalf corners)) as SB.
  pose proof (sort_length byX (topHalf corners)) as LTs. rewrite LT in LTs.
  pose proof (sort_length byX (bottomHalf corners)) as LBs. rewrite LB in LBs.
  assert (Perm : Permutation corners r).
  { unfold r. rewrite HP at 1. clear - PT PB LTs LBs.
    destruct (JS.sort byX (topHalf corners)) as [|t0 [|t1 [|? ?]]]; try discriminate.
    destruct (JS.sort byX (bottomHalf corners)) as [|b0 [|b1 [|? ?]]]; try discriminate.
    rewrite PT, PB. cbn. do 2 apply perm_skip. apply perm_swap. }
  destruct (centroid_perm _ _ Perm) as [_ Ey].
  (* the tie, read on the sorted bottom half *)
  assert (Tie : forall b0 b1, JS.sort byX (bottomHalf corners) = [b0; b1] ->
                         bottomTie corners = Qeq_bool (x b0) (x b1)).
  { intros b0 b1 E. rewrite E in PB. unfold bottomTie.
    destruct (bottomHalf corners) as [|u [|v [|? ?]]]; try discriminate.
    apply Permutation_length_2 in PB.
    destruct PB as [[-> ->]|[-> ->]]; [reflexivity | apply Qeq_bool_comm]. }
  (* membership in the halves of [corners] *)
  assert (InT : forall p, In p (JS.sort byX (topHalf corners)) ->
                     JS.ltb (y p) (y (centroid r)) = true).
  { intros p I. apply (Permutation_in _ (Permutation_sym PT)) in I.
    apply filter_In in I. destruct I as [_ I]. now rewrite <- Ey. }
  assert (InB : forall p, In p (JS.sort byX (bottomHalf corners)) ->
                     JS.ltb (y p) (y (centroid r)) = false).
  { intros p I. apply (Permutation_in _ (Permutation_sym PB)) in I.
    apply filter_In in I. destruct I as [_ I].
    rewrite geb_ltb in I. apply negb_true_iff in I. now rewrite <- Ey. }
  revert InT InB. unfold topHalf at 2, bottomHalf at 2.
  generalize (y (centroid r)). intros c InT InB.
  unfold r in *. clear r Perm Ey.
  destruct (JS.sort byX (topHalf corners)) as [|t0 [|t1 [|? ?]]]; try discriminate.
  destruct (JS.sort byX (bottomHalf corners)) as [|b0 [|b1 [|? ?]]]; try discriminate.
  exists t0, t1, b0, b1. split; [reflexivity|].
  rewrite (Tie b0 b1 eq_refl).
  change (assemble [t0; t1] [b0; b1]) with [t0; t1; b1; b0].
  cbn [filter]. rewrite !geb_ltb.
  rewrite (InT t0), (InT t1), (InB b0), (InB b1) by (cbn; auto).
  cbn [negb].
  rewrite (sort_fixed byX [t0; t1] ST).
  assert (O : byX b0 b1 <= 0).
  { inversion SB as [|? ? _ H]; subst. inversion H; subst. assumption. }
  cbn [JS.sort JS.insert]. unfold byX in O.
  destruct (Qeq_bool (x b0) (x b1)) eqn:Q.
  - apply Qeq_bool_iff in Q.
    assert (G : JS.ltb 0 (byX b1 b0) = false) by (apply ltb_ge; unfold byX; lra).
    rewrite G. reflexivity.
  - apply Qeq_bool_neq in Q.
    assert (G : JS.ltb 0 (byX b1 b0) = true).
    { apply ltb_lt. unfold byX.
      destruct (Qlt_le_dec (x b0) (x b1)) as [Lt|Ge]; [lra|].
      exfalso. apply Q. lra. }
    rewrite G. reflexivity.
Qed.


(** With such a tie between two different points the split is not
    idempotent: the second application exchanges the two bottom points. *)
Lemma split_tie_swaps corners t0 t1 b0 b1 :
  length corners = 4%nat -> bottomTie corners = true ->
  DocumentDetection.sortCorners corners = [t0; t1; b1; b0] ->
  DocumentDetection.sortCorners (DocumentDetection.sortCorners corners)
  = [t0; t1; b0; b1].
Proof.
  intros L Tie E. rewrite E.
  rewrite DocumentDetection_sortCorners_unfold in E. rewrite L in E.
  cbn [Nat.eqb negb] in E.
  pose proof (split_twice corners L) as Twice. cbv zeta in Twice.
  rewrite Tie, E in Twice.
  destruct (Twice eq_refl) as (t0' & t1' & b0' & b1' & R & S).
  injection R as -> -> -> ->.
  rewrite DocumentDetection_sortCorners_unfold. exact S.
Qed.



(** The orderings on the unit-ten square given out of order. *)
Example sortCorners_square :
  DocumentCamera.sortCorners (host := floorHost) [pt 10 10; pt 0 0; pt 10 0; pt 0 10]
  = [pt 0 0; pt 10 0; pt 10 10; pt 0 10]
  /\ DocumentDetection.sortCorners [pt 10 10; pt 0 0; pt 10 0; pt 0 10]
     = [pt 0 0; pt 10 0; pt 10 10; pt 0 10].
Proof. split; vm_compute; reflexivity. Qed.

(** ** The model where a division by zero could matter *)

(** When both vertical edges have length zero the source divides by zero and
    every comparison on the resulting infinity or NaN is false; the model
    divides to zero and rejects as well. *)
Lemma evaluateDetectionQuality_flat {host : Host} video p0 p1 p2 p3 :
  averagedHeight p0 p1 p2 p3 == 0 ->
  evaluateDetectionQuality (Some video) [p0; p1; p2; p3] = false.
Proof.
  intros Flat. unfold evaluateDetectionQuality. cbn [length Nat.eqb negb]. cbv zeta.
  rewrite calculateQuadrilateralDimensions_four. cbn [width height].
  set (aspectRatio := averagedWidth p0 p1 p2 p3 / averagedHeight p0 p1 p2 p3).
  assert (Z : aspectRatio == 0).
  { unfold aspectRatio, Qdiv. rewrite Flat. change (/ 0) with 0. ring. }
  clearbody aspectRatio.
  assert (A : JS.ltb (JS.Math_abs (aspectRatio - 1 / 1.414)) 0.3 = false).
  { apply ltb_ge. unfold JS.Math_abs. rewrite Z. apply Qle_bool_iff. reflexivity. }
  assert (B : JS.ltb (JS.Math_abs (aspectRatio - 1.414)) 0.3 = false).
  { apply ltb_ge. unfold JS.Math_abs. rewrite Z. apply Qle_bool_iff. reflexivity. }
  rewrite A, B. cbn [orb]. now rewrite andb_false_r.
Qed.

(** ** The examples of the specification *)

Example area_unit_square :
  calculateQuadrilateralArea [pt 0 0; pt 1 0; pt 1 1; pt 0 1] == 1.
Proof. reflexivity. Qed.

Example area_collinear :
  calculateQuadrilateralArea [pt 0 0; pt 1 0; pt 2 0; pt 3 0] == 0.
Proof. reflexivity. Qed.

Example convex_rectangle :
  isConvexQuadrilateral [pt 0 0; pt 10 0; pt 10 5; pt 0 5] = true
  /\ isConvexQuadrilateral [pt 5 0; pt 10 5; pt 5 10; pt 0 5] = true.
Proof. split; vm_compute; reflexivity. Qed.

Example convex_bowtie :
  isConvexQuadrilateral [pt 0 0; pt 10 10; pt 10 0; pt 0 10] = false.
Proof. vm_compute. reflexivity. Qed.

(** The top/bottom split puts the two highest points of a slanted
    parallelogram first. *)
Example sortCorners_parallelogram :
  DocumentDetection.sortCorners [pt 12 11; pt 0 1; pt 2 10; pt 10 0]
  = [pt 0 1; pt 10 0; pt 12 11; pt 2 10].
Proof. vm_compute. reflexivity. Qed.

(** Three good samples 100 ms apart bring the consecutive counter to 3 and
    schedule one capture after 200 ms; a fourth good sample 500 ms later sets
    the counter back to 1. *)
Example tracker_run :
  cycles (host := floorHost) refs1000
    [(Some page, 1000%Z); (Some page, 1100%Z); (Some page, 1200%Z)] initialState
  = (firedState, [200%Z])
  /\ consecutiveGoodDetections firedState = 3%Z
  /\ consecutiveGoodDetections
       (detectDocument (host := floorHost) refs1000 (Some page) 1700 firedState) = 1%Z.
Proof. split; [|split]; vm_compute; reflexivity. Qed.

(** * Further properties of the camera component *)

Section TrackerMore.
Context {host : Host}.

Lemma autoCaptureEffect_keeps s :
  detectedCorners (fst (autoCaptureEffect s)) = detectedCorners s
  /\ isGoodDetection (fst (autoCaptureEffect s)) = isGoodDetection s
  /\ stableDetectionCount (fst (autoCaptureEffect s)) = stableDetectionCount s
  /\ consecutiveGoodDetections (fst (autoCaptureEffect s)) = consecutiveGoodDetections s
  /\ autoMode (fst (autoCaptureEffect s)) = autoMode s
  /\ lastGoodDetectionTime (fst (autoCaptureEffect s)) = lastGoodDetectionTime s.
Proof.
  unfold autoCaptureEffect.
  destruct (_ && _ && _); [now destruct s|].
  destruct (_ && _ && _); now destruct s.
Qed.

Lemma handleCapture_state refs imageUri s : fst (handleCapture refs imageUri s) = s.
Proof.
  unfold handleCapture.
  now destruct (videoRef refs), (canvasRef refs), (detectedCorners s), (canvasContext refs).
Qed.

Lemma after_keeps_autoCapturing refs events :
  forall s, autoCapturing s = true -> autoCapturing (after refs events s) = true.
Proof.
  induction events as [|e rest IH]; intros s A; [exact A|].
  apply (IH (step refs e s)). now apply step_keeps_autoCapturing.
Qed.

(** X1.  Once [autoCapturing] is set nothing the component does clears it:
    after any sequence of cycles, effect runs, captures, mode toggles and
    simulated detections the flag is still set, the capture button is
    disabled and the auto-capture effect stays silent. *)
Theorem autoCapturing_absorbing refs events s :
  autoCapturing s = true ->
  autoCapturing (after refs events s) = true
  /\ captureButtonDisabled (after refs events s) = true
  /\ fires (after refs events s) = false.
Proof.
  intros A. pose proof (after_keeps_autoCapturing refs events s A) as A'.
  split; [exact A'|]. split.
  - unfold captureButtonDisabled. rewrite A'. apply orb_true_r.
  - unfold fires. now rewrite autoCaptureEffect_quiet by now left.
Qed.

Lemma cycles_cons refs detected now rest s :
  cycles refs ((detected, now) :: rest) s =
  (fst (cycles refs rest (fst (autoCaptureEffect (detectDocument refs detected now s)))),
   match snd (autoCaptureEffect (detectDocument refs detected now s)) with
   | Some delay =>
       delay :: snd (cycles refs rest
                       (fst (autoCaptureEffect (detectDocument refs detected now s))))
   | None => snd (cycles refs rest
                    (fst (autoCaptureEffect (detectDocument refs detected now s))))
   end).
Proof.
  cbn [cycles].
  destruct (autoCaptureEffect (detectDocument refs detected now s)) as [s' fired].
  cbn [fst snd]. now destruct (cycles refs rest s').
Qed.

(** X2.  With auto mode off no run of processing cycles schedules a capture,
    whatever the detector returns and whatever the counters are. *)
Theorem manual_mode_never_fires refs samples :
  forall s, autoMode s = false ->
       snd (cycles refs samples s) = []
       /\ autoMode (fst (cycles refs samples s)) = false.
Proof.
  induction samples as [|[detected now] rest IH]; intros s M; [now split|].
  rewrite cycles_cons. cbn [fst snd].
  destruct (detectDocument_flags refs detected now s) as [_ M'].
  rewrite autoCaptureEffect_quiet by (right; left; congruence).
  cbn [fst snd]. apply IH. congruence.
Qed.

(** One cycle raises either counter by one at most. *)
Lemma detectDocument_counters_le refs detected now s :
  (0 <= consecutiveGoodDetections s)%Z -> (0 <= stableDetectionCount s)%Z ->
  let s' := detectDocument refs detected now s in
  (0 <= consecutiveGoodDetections s' <= consecutiveGoodDetections s + 1)%Z
  /\ (0 <= stableDetectionCount s' <= stableDetectionCount s + 1)%Z.
Proof.
  intros C S s'. subst s'. destruct (goodDetection refs detected) eqn:G.
  - destruct (detectDocument_good refs detected now s G) as (C' & _ & S' & _).
    cbv zeta in C', S'. rewrite C', S'.
    destruct (now - lastGoodDetectionTime s <? 300)%Z; lia.
  - destruct (detectDocument_bad refs detected now s G) as (C' & _ & S' & _).
    cbv zeta in C', S'. rewrite C', S'. lia.
Qed.

(** X3.  Debouncing: starting from non-negative counters, a run of [n]
    cycles cannot schedule a capture as long as the consecutive counter plus
    [n] stays below 3 and the stable counter plus [n] stays below 10.  From
    zeroed counters (a fresh mount, a mode toggle) the first two cycles never
    capture. *)
Theorem short_run_never_fires refs samples :
  forall s,
    (0 <= consecutiveGoodDetections s)%Z -> (0 <= stableDetectionCount s)%Z ->
    (consecutiveGoodDetections s + Z.of_nat (length samples) < 3)%Z ->
    (stableDetectionCount s + Z.of_nat (length samples) < 10)%Z ->
    snd (cycles refs samples s) = [].
Proof.
  induction samples as [|[detected now] rest IH]; intros s C0 S0 C S; [reflexivity|].
  cbn [length] in C, S. rewrite Nat2Z.inj_succ in C, S.
  rewrite cycles_cons. cbn [fst snd].
  destruct (detectDocument_counters_le refs detected now s C0 S0) as [C' S'].
  cbv zeta in C', S'.
  set (s1 := detectDocument refs detected now s) in *.
  rewrite (autoCaptureEffect_quiet s1) by (right; right; lia).
  cbn [fst snd]. apply IH; lia.
Qed.
End TrackerMore.

Lemma autoCapturing_absorbing_witness :
  autoCapturing
    (after (host := floorHost) refs1000
       [ToggleAutoMode; Cycle None 2000; Simulate; Effect; Capture "frame"] firedState)
  = true
  /\ captureButtonDisabled
       (after (host := floorHost) refs1000
          [ToggleAutoMode; Cycle None 2000; Simulate; Effect; Capture "frame"] firedState)
     = true
  /\ fires
       (after (host := floorHost) refs1000
          [ToggleAutoMode; Cycle None 2000; Simulate; Effect; Capture "frame"] firedState)
     = false.
Proof.
  apply (autoCapturing_absorbing (host := floorHost) refs1000
           [ToggleAutoMode; Cycle None 2000; Simulate; Effect; Capture "frame"]
           firedState).
  reflexivity.
Defined.

Lemma manual_mode_never_fires_witness :
  snd (cycles (host := floorHost) refs1000
         [(Some page, 1000%Z); (Some page, 1100%Z); (Some page, 1200%Z);
          (Some page, 1300%Z)]
         (toggleAutoMode initialState)) = []
  /\ autoMode
       (fst (cycles (host := floorHost) refs1000
               [(Some page, 1000%Z); (Some page, 1100%Z); (Some page, 1200%Z);
                (Some page, 1300%Z)]
               (toggleAutoMode initialState))) = false.
Proof.
  apply (manual_mode_never_fires (host := floorHost) refs1000
           [(Some page, 1000%Z); (Some page, 1100%Z); (Some page, 1200%Z);
            (Some page, 1300%Z)]
           (toggleAutoMode initialState)).
  reflexivity.
Defined.

Lemma short_run_never_fires_witness :
  snd (cycles (host := floorHost) refs1000
         [(Some page, 1000%Z); (Some page, 1100%Z)] initialState) = [].
Proof.
  apply (short_run_never_fires (host := floorHost) refs1000
           [(Some page, 1000%Z); (Some page, 1100%Z)] initialState);
    cbn; lia.
Defined.

Section TrackerPaths.
Context {host : Host}.

Lemma autoCaptureEffect_slow s :
  autoMode s = true -> autoCapturing s = false ->
  (consecutiveGoodDetections s < 3)%Z -> (10 <= stableDetectionCount s)%Z ->
  autoCaptureEffect s = (setAutoCapturing true s, Some 300%Z).
Proof.
  unfold autoCaptureEffect. intros -> -> C S. cbn.
  apply Z.leb_gt in C. apply Z.leb_le in S. now rewrite C, S.
Qed.

(** A run of good samples 300 ms or more apart keeps the consecutive counter
    at one and raises the stable counter by one per sample; the capture is
    scheduled when the stable counter reaches ten, by the 300 ms branch. *)
Lemma spaced_run refs samples :
  forall s,
    autoMode s = true -> autoCapturing s = false ->
    (consecutiveGoodDetections s <= 1)%Z ->
    (0 <= stableDetectionCount s < 10)%Z ->
    spacedGood refs (lastGoodDetectionTime s) samples = true ->
    snd (cycles refs samples s) =
      if (stableDetectionCount s + Z.of_nat (length samples) <? 10)%Z
      then [] else [300%Z].
Proof.
  induction samples as [|[detected now] rest IH]; intros s M A C S G.
  - cbn [length cycles snd]. now rewrite (proj2 (Z.ltb_lt _ _)) by (cbn; lia).
  - cbn [length]. rewrite Nat2Z.inj_succ.
    cbn [spacedGood] in G. apply andb_true_iff in G. destruct G as [G G3].
    apply andb_true_iff in G. destruct G as [G1 G2]. apply Z.leb_le in G2.
    rewrite cycles_cons. cbn [fst snd].
    destruct (detectDocument_good refs detected now s G1) as (C1 & L1 & S1 & A1 & M1).
    cbv zeta in C1, L1, S1, A1, M1.
    set (s1 := detectDocument refs detected now s) in *.
    assert (C1' : consecutiveGoodDetections s1 = 1%Z).
    { rewrite C1. now rewrite (proj2 (Z.ltb_ge _ _)) by lia. }
    assert (S1' : stableDetectionCount s1 = (stableDetectionCount s + 1)%Z) by lia.
    destruct (Z.ltb_spec (stableDetectionCount s1) 10) as [Lt|Ge].
    + rewrite (autoCaptureEffect_quiet s1) by (right; right; lia).
      cbn [fst snd].
      assert (G3' : spacedGood refs (lastGoodDetectionTime s1) rest = true)
        by now rewrite L1.
      rewrite (IH s1 ltac:(congruence) ltac:(congruence) ltac:(lia) ltac:(lia) G3').
      now replace (stableDetectionCount s1 + Z.of_nat (length rest))%Z
        with (stableDetectionCount s + Z.succ (Z.of_nat (length rest)))%Z by lia.
    + rewrite (autoCaptureEffect_slow s1) by (congruence || lia).
      cbn [fst snd].
      rewrite (proj1 (cycles_suppressed refs rest (setAutoCapturing true s1)
                        ltac:(now destruct s1))).
      now rewrite (proj2 (Z.ltb_ge _ _)) by lia.
Qed.

(** X4.  The fallback path on its own: with auto mode on and zeroed
    counters, a run of good samples that each come 300 ms or more after the
    one before never reaches three consecutive detections; it schedules no
    capture while it has fewer than ten samples, and from the tenth sample on
    exactly one, with the 300 ms delay of the stable-counter branch. *)
Theorem slow_path_fires_at_ten refs samples s :
  autoMode s = true -> autoCapturing s = false ->
  consecutiveGoodDetections s = 0%Z -> stableDetectionCount s = 0%Z ->
  spacedGood refs (lastGoodDetectionTime s) samples = true ->
  snd (cycles refs samples s) = if (length samples <? 10)%nat then [] else [300%Z].
Proof.
  intros M A C S G. rewrite (spaced_run refs samples s M A); try lia; try exact G.
  rewrite S. cbn [Z.add].
  destruct (Nat.ltb_spec (length samples) 10), (Z.ltb_spec (Z.of_nat (length samples)) 10);
    (reflexivity || lia).
Qed.

(** A cycle without a four-corner document. *)
Lemma detectDocument_noQuad refs detected now s :
  noQuad detected = true ->
  detectDocument refs detected now s = noDocument s.
Proof.
  unfold noQuad, detectDocument. destruct detected as [corners|]; [|reflexivity].
  now destruct (length corners =? 4)%nat.
Qed.

Lemma noDocument_fields s :
  stableDetectionCount (noDocument s) = Z.max (stableDetectionCount s - 1) 0
  /\ consecutiveGoodDetections (noDocument s) = 0%Z
  /\ ((stableDetectionCount s <= 3)%Z ->
      detectedCorners (noDocument s) = None /\ isGoodDetection (noDocument s) = false)
  /\ ((3 < stableDetectionCount s)%Z ->
      detectedCorners (noDocument s) = detectedCorners s
      /\ isGoodDetection (noDocument s) = isGoodDetection s).
Proof.
  unfold noDocument.
  destruct (Z.leb_spec (stableDetectionCount s) 3) as [Le|Gt].
  - destruct (showGuide s), s; cbn in *; repeat split; intros; lia.
  - destruct s; cbn in *; repeat split; intros; lia.
Qed.

Lemma lost_run refs samples :
  forall s,
    samples <> [] ->
    (stableDetectionCount s <= Z.of_nat (length samples) + 2)%Z ->
    forallb (fun sample => noQuad (fst sample)) samples = true ->
    let s' := fst (cycles refs samples s) in
    detectedCorners s' = None /\ isGoodDetection s' = false
    /\ consecutiveGoodDetections s' = 0%Z /\ (stableDetectionCount s' <= 2)%Z.
Proof.
  induction samples as [|[detected now] rest IH]; intros s N S Q; [congruence|].
  cbn [forallb fst] in Q. apply andb_true_iff in Q. destruct Q as [Q1 Q2].
  cbn [length] in S. rewrite Nat2Z.inj_succ in S.
  rewrite cycles_cons. cbn [fst snd]. rewrite (detectDocument_noQuad _ _ _ _ Q1).
  destruct (noDocument_fields s) as (S1 & C1 & Clear & Keep).
  destruct (autoCaptureEffect_keeps (noDocument s)) as (E1 & E2 & E3 & E4 & _).
  set (s1 := fst (autoCaptureEffect (noDocument s))) in *.
  destruct rest as [|sample rest'].
  - cbn [cycles fst]. cbn [length] in S.
    destruct Clear as [K1 K2]; [lia|]. rewrite E1, E2, E3, E4. repeat split; try assumption.
    lia.
  - apply IH; [discriminate| |exact Q2]. rewrite E3, S1. lia.
Qed.

(** A cycle in which four corners came back. *)
Lemma detectDocument_quad refs corners now s :
  length corners = 4%nat ->
  let s' := detectDocument refs (Some corners) now s in
  detectedCorners s' = Some corners
  /\ isGoodDetection s' = evaluateDetectionQuality (videoRef refs) corners.
Proof.
  intros L. unfold detectDocument. rewrite L. cbn [Nat.eqb]. cbv zeta.
  destruct (evaluateDetectionQuality (videoRef refs) corners);
    [destruct (now - lastGoodDetectionTime s <? 300)%Z, (showGuide s)|];
    destruct s; cbn; split; reflexivity.
Qed.

Lemma simulateDocumentDetection_fields refs video s :
  videoRef refs = Some video ->
  let s' := simulateDocumentDetection refs s in
  stableDetectionCount s' = 15%Z
  /\ isGoodDetection s' = true
  /\ consecutiveGoodDetections s' = consecutiveGoodDetections s
  /\ autoMode s' = autoMode s /\ autoCapturing s' = autoCapturing s
  /\ exists corners, detectedCorners s' = Some corners /\ length corners = 4%nat.
Proof.
  intros V. unfold simulateDocumentDetection. rewrite V. cbv zeta.
  destruct (JS.ltb _ _); destruct s; cbn; repeat split; eexists; split; reflexivity.
Qed.

Lemma step_invariant refs e s :
  detectionInvariant s -> detectionInvariant (step refs e s).
Proof.
  intros (S & C & Four & Stable & Consecutive).
  destruct e as [detected now| |imageUri| |]; cbn [step].
  - destruct (noQuad detected) eqn:N.
    + rewrite (detectDocument_noQuad _ _ _ _ N).
      destruct (noDocument_fields s) as (S1 & C1 & Clear & Keep).
      unfold detectionInvariant. rewrite S1, C1.
      destruct (Z.leb_spec (stableDetectionCount s) 3) as [Le|Gt].
      * destruct (Clear Le) as [D _]. rewrite D.
        repeat split; try lia; try discriminate.
      * destruct (Keep Gt) as [D _]. rewrite D.
        repeat split; try lia; auto.
    + destruct detected as [corners|]; [|discriminate]. cbn in N.
      apply negb_false_iff, Nat.eqb_eq in N.
      destruct (detectDocument_quad refs corners now s N) as [D G].
      cbv zeta in D, G.
      assert (Range : (0 <= stableDetectionCount (detectDocument refs (Some corners) now s) <= 20)%Z
                      /\ (0 <= consecutiveGoodDetections (detectDocument refs (Some corners) now s))%Z
                      /\ ((0 < consecutiveGoodDetections (detectDocument refs (Some corners) now s))%Z ->
                          isGoodDetection (detectDocument refs (Some corners) now s) = true)).
      { destruct (goodDetection refs (Some corners)) eqn:Q.
        - destruct (detectDocument_good refs _ now s Q) as (C' & _ & S' & _).
          cbv zeta in C', S'. rewrite C', S', G.
          cbn in Q. rewrite N in Q. cbn in Q. rewrite Q.
          destruct (now - lastGoodDetectionTime s <? 300)%Z; repeat split; lia.
        - destruct (detectDocument_bad refs _ now s Q) as (C' & _ & S' & _).
          cbv zeta in C', S'. rewrite C', S'. repeat split; lia. }
      destruct Range as (R1 & R2 & R3).
      unfold detectionInvariant. rewrite D.
      repeat split; try lia; try discriminate; auto.
      intros c E. now injection E as <-.
  - destruct (autoCaptureEffect_keeps s) as (E1 & E2 & E3 & E4 & _).
    unfold detectionInvariant. rewrite E1, E2, E3, E4. repeat split; try lia; auto;
      now apply Consecutive.
  - rewrite handleCapture_state. repeat split; try lia; auto; now apply Consecutive.
  - destruct s as [dc g sc ac am lt cg sg]. unfold detectionInvariant. cbn in *.
    repeat split; try lia; auto.
  - destruct (videoRef refs) as [video|] eqn:V.
    + destruct (simulateDocumentDetection_fields refs video s V)
        as (S1 & G1 & C1 & _ & _ & corners & D1 & L1).
      cbv zeta in S1, G1, C1, D1.
      unfold detectionInvariant. rewrite S1, G1, C1, D1.
      repeat split; try lia; try discriminate.
      intros c E. now injection E as <-.
    + unfold simulateDocumentDetection. rewrite V.
      repeat split; try lia; auto; now apply Consecutive.
Qed.

Lemma reachable_invariant refs s : reachable refs s -> detectionInvariant s.
Proof.
  induction 1 as [|e s R IH]; [|now apply step_invariant].
  unfold detectionInvariant. cbn. repeat split; try lia; discriminate.
Qed.

(** X5.  Stale corners expire: in any state the component can reach, after
    eighteen cycles in a row without a four-corner document the remembered
    corners are gone, the detection is marked not good and the consecutive
    counter is zero. *)
Theorem stale_corners_expire refs samples s :
  reachable refs s ->
  length samples = 18%nat ->
  forallb (fun sample => noQuad (fst sample)) samples = true ->
  detectedCorners (fst (cycles refs samples s)) = None
  /\ isGoodDetection (fst (cycles refs samples s)) = false
  /\ consecutiveGoodDetections (fst (cycles refs samples s)) = 0%Z.
Proof.
  intros R L Q. destruct (reachable_invariant refs s R) as (Range & _).
  destruct (lost_run refs samples s) as (D & G & C & _); try assumption.
  - intros ->. discriminate.
  - rewrite L. cbn. lia.
  - auto.
Qed.

(** X6.  Whatever the camera hands to [onCapture] has exactly four corners
    and the frame it was given: in every reachable state a capture request,
    manual or automatic, carries the current four remembered corners. *)
Theorem capture_has_four_corners refs imageUri s uri corners :
  reachable refs s ->
  snd (handleCapture refs imageUri s) = Some (uri, corners) ->
  uri = imageUri /\ detectedCorners s = Some corners /\ length corners = 4%nat.
Proof.
  intros R H. destruct (reachable_invariant refs s R) as (_ & _ & Four & _).
  unfold handleCapture in H.
  destruct (videoRef refs), (canvasRef refs), (detectedCorners s) as [c|] eqn:D,
    (canvasContext refs); cbn in H; try discriminate.
  injection H as <- <-. auto.
Qed.

(** X7.  The auto-capture effect never fires on nothing: in every reachable
    state in which it fires there are remembered corners, so with the video
    element, the canvas and its context in place the scheduled
    [handleCapture] does call [onCapture], with four corners. *)
Theorem auto_capture_has_corners refs imageUri s :
  reachable refs s ->
  fires s = true ->
  videoRef refs <> None -> canvasRef refs = true -> canvasContext refs = true ->
  exists corners,
    snd (autoCapture refs imageUri s) = Some (imageUri, corners)
    /\ detectedCorners s = Some corners
    /\ length corners = 4%nat.
Proof.
  intros R F V Cv Cx.
  destruct (reachable_invariant refs s R) as (_ & _ & Four & Stable & Consecutive).
  assert (D : detectedCorners s <> None).
  { unfold fires, autoCaptureEffect in F.
    destruct (autoMode s && (3 <=? consecutiveGoodDetections s)%Z && negb (autoCapturing s))
      eqn:Fast.
    - apply andb_true_iff in Fast. destruct Fast as [Fast _].
      apply andb_true_iff in Fast. destruct Fast as [_ Fast].
      apply Z.leb_le in Fast. apply Consecutive. lia.
    - destruct (autoMode s && (10 <=? stableDetectionCount s)%Z && negb (autoCapturing s))
        eqn:Slow; [|discriminate].
      apply andb_true_iff in Slow. destruct Slow as [Slow _].
      apply andb_true_iff in Slow. destruct Slow as [_ Slow].
      apply Z.leb_le in Slow. apply Stable. lia. }
  destruct (detectedCorners s) as [corners|] eqn:E; [|congruence].
  exists corners. split; [|split; [reflexivity|now apply Four]].
  unfold autoCapture. unfold fires in F.
  destruct (autoCaptureEffect s) as [s' fired] eqn:A. cbn [snd] in F.
  destruct fired as [delay|]; [|discriminate].
  pose proof (autoCaptureEffect_keeps s) as (E1 & _). rewrite A in E1. cbn [fst] in E1.
  unfold handleCapture. rewrite E1, E, Cv, Cx.
  destruct (videoRef refs); [reflexivity|congruence].
Qed.
End TrackerPaths.

Lemma slow_path_fires_at_ten_witness :
  snd (cycles (host := floorHost) refs1000
         [(Some page, 1000%Z); (Some page, 1300%Z); (Some page, 1600%Z);
          (Some page, 1900%Z); (Some page, 2200%Z); (Some page, 2500%Z);
          (Some page, 2800%Z); (Some page, 3100%Z); (Some page, 3400%Z);
          (Some page, 3700%Z); (Some page, 4000%Z)]
         initialState) = [300%Z].
Proof.
  apply (slow_path_fires_at_ten (host := floorHost) refs1000
           [(Some page, 1000%Z); (Some page, 1300%Z); (Some page, 1600%Z);
            (Some page, 1900%Z); (Some page, 2200%Z); (Some page, 2500%Z);
            (Some page, 2800%Z); (Some page, 3100%Z); (Some page, 3400%Z);
            (Some page, 3700%Z); (Some page, 4000%Z)]
           initialState);
    reflexivity.
Defined.

Lemma stale_corners_expire_witness :
  detectedCorners
    (fst (cycles (host := floorHost) refs1000
            (map (fun now => (None, now)) (map Z.of_nat (seq 2000 18))) firedState)) = None
  /\ isGoodDetection
       (fst (cycles (host := floorHost) refs1000
               (map (fun now => (None, now)) (map Z.of_nat (seq 2000 18))) firedState)) = false
  /\ consecutiveGoodDetections
       (fst (cycles (host := floorHost) refs1000
               (map (fun now => (None, now)) (map Z.of_nat (seq 2000 18))) firedState)) = 0%Z.
Proof.
  apply (stale_corners_expire (host := floorHost) refs1000
           (map (fun now => (None, now)) (map Z.of_nat (seq 2000 18))) firedState).
  - unfold firedState, readyState, after. cbn [fold_left].
    repeat apply reachable_step. apply reachable_initial.
  - reflexivity.
  - reflexivity.
Defined.

Lemma capture_has_four_corners_witness :
  "frame"%string = "frame"%string
  /\ detectedCorners readyState = Some page /\ length page = 4%nat.
Proof.
  apply (capture_has_four_corners (host := floorHost) refs1000 "frame" readyState
           "frame" page).
  - unfold readyState, after. cbn [fold_left].
    repeat apply reachable_step. apply reachable_initial.
  - reflexivity.
Defined.

Lemma auto_capture_has_corners_witness :
  exists corners,
    snd (autoCapture refs1000 "frame" readyState) = Some ("frame"%string, corners)
    /\ detectedCorners readyState = Some corners
    /\ length corners = 4%nat.
Proof.
  apply (auto_capture_has_corners (host := floorHost) refs1000 "frame" readyState).
  - unfold readyState, after. cbn [fold_left].
    repeat apply reachable_step. apply reachable_initial.
  - reflexivity.
  - discriminate.
  - reflexivity.
  - reflexivity.
Defined.

(** * Further properties of corner ordering and rectification *)

(** ** No corner is lost *)

Lemma assemble_perm corners :
  length corners = 4%nat ->
  length (assemble (JS.sort byX (topHalf corners)) (JS.sort byX (bottomHalf corners)))
  = 4%nat ->
  Permutation corners
    (assemble (JS.sort byX (topHalf corners)) (JS.sort byX (bottomHalf corners))).
Proof.
  intros L Lr.
  pose proof (halves_length corners) as HL. rewrite L in HL.
  rewrite assemble_length, !sort_length in Lr.
  pose proof (sort_perm byX (topHalf corners)) as PT.
  pose proof (sort_perm byX (bottomHalf corners)) as PB.
  pose proof (sort_length byX (topHalf corners)) as LTs.
  pose proof (sort_length byX (bottomHalf corners)) as LBs.
  rewrite (halves_perm corners) at 1.
  destruct (JS.sort byX (topHalf corners)) as [|t0 [|t1 [|? ?]]];
    cbn [length] in LTs; try lia.
  destruct (JS.sort byX (bottomHalf corners)) as [|b0 [|b1 [|? ?]]];
    cbn [length] in LBs; try lia.
  rewrite PT, PB. cbn. do 2 apply perm_skip. apply perm_swap.
Qed.

(** X8.  The quadrant sort of the camera and the guarded top/bottom split of
    the rectification component return a permutation of their input, for
    every input list: no corner is dropped, duplicated or altered. *)
Theorem sortCorners_permutation {host : Host} corners :
  Permutation corners (DocumentCamera.sortCorners corners)
  /\ Permutation corners (ImageProcessing.sortCorners corners).
Proof.
  split.
  - rewrite DocumentCamera_sortCorners_unfold.
    destruct (negb (length corners =? 4)%nat); [reflexivity | apply sort_perm].
  - unfold ImageProcessing.sortCorners.
    destruct (Nat.eqb_spec (length corners) 4) as [L|L]; cbn [negb]; [|reflexivity].
    rewrite ImageProcessing_sortedCorners_unfold.
    destruct (Nat.eqb_spec
                (length (assemble (JS.sort byX (topHalf corners))
                           (JS.sort byX (bottomHalf corners)))) 4) as [E|E];
      [now apply assemble_perm | reflexivity].
Qed.

(** ** What the orderings achieve *)


Section QuadrantOrder.
Context {host : Host}.

Lemma compareCorners_quadrants c a b :
  compareCorners c a b <= 0 -> getQuadrant a c <= getQuadrant b c.
Proof.
  unfold compareCorners.
  destruct (JS.neqb (getQuadrant a c) (getQuadrant b c)) eqn:N.
  - lra.
  - apply neqb_false in N. lra.
Qed.

(** X10.  The quadrant sort lists four corners by quadrant around their
    centroid: along the result the quadrant numbers (0 above left, 1 above
    right, 2 below right, 3 below left) never decrease. *)
Theorem quadrant_sort_by_quadrant corners :
  length corners = 4%nat ->
  StronglySorted Qle
    (map (fun p => getQuadrant p (centroid corners)) (DocumentCamera.sortCorners corners)).
Proof.
  intros L. rewrite DocumentCamera_sortCorners_unfold, L. cbn [Nat.eqb negb].
  pose proof (sort_sorted (compareCorners (centroid corners))
                (compareCorners_asym (centroid corners)) corners) as S.
  apply Sorted_StronglySorted; [intros a b c; apply Qle_trans|].
  induction S as [|a rest S IH H]; cbn [map]; constructor; [exact IH|].
  destruct H as [|b rest O]; cbn [map]; constructor.
  now apply compareCorners_quadrants.
Qed.
End QuadrantOrder.

(** ** The crop *)

Lemma fold_Qmin_spec rest :
  forall a,
    fold_left Qmin rest a <= a
    /\ (forall v, In v rest -> fold_left Qmin rest a <= v)
    /\ (fold_left Qmin rest a == a \/ exists v, In v rest /\ fold_left Qmin rest a == v).
Proof.
  induction rest as [|b rest IH]; intros a; cbn [fold_left].
  - split; [apply Qle_refl|]. split; [intros v []|]. left. reflexivity.
  - destruct (IH (Qmin a b)) as (Le & All & Att).
    pose proof (Q.le_min_l a b) as Ml. pose proof (Q.le_min_r a b) as Mr.
    split; [lra|]. split.
    + intros v [<-|I]; [lra | now apply All].
    + destruct Att as [E|(v & I & E)].
      * destruct (Q.min_dec a b) as [D|D].
        -- left. exact (Qeq_trans _ _ _ E D).
        -- right. exists b. split; [now left | exact (Qeq_trans _ _ _ E D)].
      * right. exists v. split; [now right | exact E].
Qed.

Lemma fold_Qmax_spec rest :
  forall a,
    a <= fold_left Qmax rest a
    /\ (forall v, In v rest -> v <= fold_left Qmax rest a)
    /\ (fold_left Qmax rest a == a \/ exists v, In v rest /\ fold_left Qmax rest a == v).
Proof.
  induction rest as [|b rest IH]; intros a; cbn [fold_left].
  - split; [apply Qle_refl|]. split; [intros v []|]. left. reflexivity.
  - destruct (IH (Qmax a b)) as (Le & All & Att).
    pose proof (Q.le_max_l a b) as Ml. pose proof (Q.le_max_r a b) as Mr.
    split; [lra|]. split.
    + intros v [<-|I]; [lra | now apply All].
    + destruct Att as [E|(v & I & E)].
      * destruct (Q.max_dec a b) as [D|D].
        -- left. exact (Qeq_trans _ _ _ E D).
        -- right. exists b. split; [now left | exact (Qeq_trans _ _ _ E D)].
      * right. exists v. split; [now right | exact E].
Qed.

(** [Math.min] of a non-empty list is its least element. *)
Lemma Math_min_spec xs :
  xs <> [] ->
  (forall v, In v xs -> JS.Math_min xs <= v)
  /\ exists v, In v xs /\ JS.Math_min xs == v.
Proof.
  destruct xs as [|a rest]; [congruence|]. intros _. cbn [JS.Math_min].
  destruct (fold_Qmin_spec rest a) as (Le & All & Att). split.
  - intros v [<-|I]; [exact Le | now apply All].
  - destruct Att as [E|(v & I & E)]; [exists a | exists v]; split; auto; now (left + right).
Qed.

Lemma Math_max_spec xs :
  xs <> [] ->
  (forall v, In v xs -> v <= JS.Math_max xs)
  /\ exists v, In v xs /\ JS.Math_max xs == v.
Proof.
  destruct xs as [|a rest]; [congruence|]. intros _. cbn [JS.Math_max].
  destruct (fold_Qmax_spec rest a) as (Le & All & Att). split.
  - intros v [<-|I]; [exact Le | now apply All].
  - destruct Att as [E|(v & I & E)]; [exists a | exists v]; split; auto; now (left + right).
Qed.

Lemma Math_min_perm xs xs' :
  Permutation xs xs' -> JS.Math_min xs == JS.Math_min xs'.
Proof.
  intros P. destruct xs as [|a rest].
  - apply Permutation_nil in P. now subst.
  - assert (N : a :: rest <> []) by discriminate.
    assert (N' : xs' <> []).
    { intros ->. apply Permutation_sym, Permutation_nil in P. discriminate. }
    destruct (Math_min_spec _ N) as (All & v & I & E).
    destruct (Math_min_spec _ N') as (All' & v' & I' & E').
    apply Qle_antisym.
    + rewrite E'. apply All. now apply (Permutation_in _ (Permutation_sym P)).
    + rewrite E. apply All'. now apply (Permutation_in _ P).
Qed.

Lemma Math_max_perm xs xs' :
  Permutation xs xs' -> JS.Math_max xs == JS.Math_max xs'.
Proof.
  intros P. destruct xs as [|a rest].
  - apply Permutation_nil in P. now subst.
  - assert (N : a :: rest <> []) by discriminate.
    assert (N' : xs' <> []).
    { intros ->. apply Permutation_sym, Permutation_nil in P. discriminate. }
    destruct (Math_max_spec _ N) as (All & v & I & E).
    destruct (Math_max_spec _ N') as (All' & v' & I' & E').
    apply Qle_antisym.
    + rewrite E. apply All'. now apply (Permutation_in _ P).
    + rewrite E'. apply All. now apply (Permutation_in _ (Permutation_sym P)).
Qed.

Lemma ImageProcessing_sortCorners_perm corners :
  Permutation corners (ImageProcessing.sortCorners corners).
Proof.
  unfold ImageProcessing.sortCorners.
  destruct (Nat.eqb_spec (length corners) 4) as [L|L]; cbn [negb]; [|reflexivity].
  rewrite ImageProcessing_sortedCorners_unfold.
  destruct (Nat.eqb_spec
              (length (assemble (JS.sort byX (topHalf corners))
                         (JS.sort byX (bottomHalf corners)))) 4) as [E|E];
    [now apply assemble_perm | reflexivity].
Qed.


(** X12.  The crop does not depend on the order in which the corners are
    given: permuting the corner list leaves the crop rectangle as it is. *)
Theorem crop_order_independent corners corners' :
  Permutation corners corners' ->
  let '(minX, minY, cropWidth, cropHeight) := ImageProcessing.cropRectangle corners in
  let '(minX', minY', cropWidth', cropHeight') := ImageProcessing.cropRectangle corners' in
  minX == minX' /\ minY == minY' /\ cropWidth == cropWidth' /\ cropHeight == cropHeight'.
Proof.
  intros P. unfold ImageProcessing.cropRectangle. cbv zeta.
  assert (S : Permutation (ImageProcessing.sortCorners corners)
                (ImageProcessing.sortCorners corners')).
  { rewrite <- (ImageProcessing_sortCorners_perm corners),
      <- (ImageProcessing_sortCorners_perm corners'). exact P. }
  pose proof (Math_min_perm _ _ (Permutation_map x S)) as E1.
  pose proof (Math_min_perm _ _ (Permutation_map y S)) as E2.
  pose proof (Math_max_perm _ _ (Permutation_map x S)) as E3.
  pose proof (Math_max_perm _ _ (Permutation_map y S)) as E4.
  repeat split; lra.
Qed.

(** ** The drawing on the output canvas *)

(** The output size, as bounds on its two sides. *)
Lemma outputSize_sides img :
  (0 < ImageProcessing.width img)%Z -> (0 < ImageProcessing.height img)%Z ->
  let w := inject_Z (ImageProcessing.width img) in
  let h := inject_Z (ImageProcessing.height img) in
  let ow := inject_Z (ImageProcessing.width (ImageProcessing.outputSize img)) in
  let oh := inject_Z (ImageProcessing.height (ImageProcessing.outputSize img)) in
  (w < h /\ ow == 1240 /\ 1240 * (h / w) - (1 # 2) < oh <= 1240 * (h / w) + (1 # 2))
  \/ (h <= w /\ oh == 1240 /\ 1240 * (w / h) - (1 # 2) < ow <= 1240 * (w / h) + (1 # 2)).
Proof.
  intros Pw Ph w h ow oh.
  assert (Qw : 0 < w) by (unfold w; rewrite <- (Zlt_Qlt 0); exact Pw).
  assert (Qh : 0 < h) by (unfold h; rewrite <- (Zlt_Qlt 0); exact Ph).
  unfold ow, oh, ImageProcessing.outputSize. fold w h.
  destruct (Z.gtb_spec (ImageProcessing.height img) (ImageProcessing.width img)) as [G|G];
    cbn [ImageProcessing.width ImageProcessing.height]; [left|right].
  - set (q := inject_Z 1240 / (w / h)).
    assert (E : q == 1240 * (h / w)).
    { unfold q. change (inject_Z 1240) with 1240. field. split; lra. }
    pose proof (Math_round_bounds q) as [B1 B2].
    split; [unfold w, h; rewrite <- Zlt_Qlt; lia|].
    split; [reflexivity | lra].
  - set (q := inject_Z 1240 * (w / h)).
    assert (E : q == 1240 * (w / h)) by reflexivity.
    pose proof (Math_round_bounds q) as [B1 B2].
    split; [unfold w, h; rewrite <- Zle_Qle; lia|].
    split; [reflexivity | lra].
Qed.


(** * Further properties of the geometry *)

Lemma Math_sign_pos a : JS.Math_sign a == 1 <-> 0 < a.
Proof.
  unfold JS.Math_sign.
  destruct (JS.ltb 0 a) eqn:P; [apply ltb_lt in P|apply ltb_ge in P].
  - split; [intros _; exact P | reflexivity].
  - destruct (JS.ltb a 0); split; intros E; try discriminate E; lra.
Qed.

Lemma Math_sign_neg a : JS.Math_sign a == -1 <-> a < 0.
Proof.
  unfold JS.Math_sign.
  destruct (JS.ltb 0 a) eqn:P; [apply ltb_lt in P|apply ltb_ge in P].
  - split; intros E; [discriminate E | lra].
  - destruct (JS.ltb a 0) eqn:N; [apply ltb_lt in N|apply ltb_ge in N].
    + split; [intros _; exact N | reflexivity].
    + split; intros E; [discriminate E | lra].
Qed.

Lemma Math_sign_cases a :
  (0 < a /\ JS.Math_sign a == 1) \/ (a == 0 /\ JS.Math_sign a == 0)
  \/ (a < 0 /\ JS.Math_sign a == -1).
Proof.
  destruct (Q_dec 0 a) as [[P|N]|Z].
  - left. split; [exact P | now apply Math_sign_pos].
  - right. right. split; [exact N | now apply Math_sign_neg].
  - right. left. split; [now symmetry | apply Math_sign_zero; now symmetry].
Qed.

#[global] Instance Math_sign_compat : Proper (Qeq ==> Qeq) JS.Math_sign.
Proof.
  intros a b E. unfold JS.Math_sign.
  assert (P : JS.ltb 0 a = JS.ltb 0 b) by now rewrite E.
  assert (N : JS.ltb a 0 = JS.ltb b 0) by now rewrite E.
  now rewrite P, N.
Qed.

Lemma Math_sign_opp a : JS.Math_sign (- a) == - JS.Math_sign a.
Proof.
  destruct (Math_sign_cases a) as [[P ->]|[[Z ->]|[N ->]]].
  - assert (E : JS.Math_sign (- a) == -1) by (apply Math_sign_neg; lra).
    rewrite E. reflexivity.
  - assert (E : JS.Math_sign (- a) == 0) by (apply Math_sign_zero; lra).
    rewrite E. reflexivity.
  - assert (E : JS.Math_sign (- a) == 1) by (apply Math_sign_pos; lra).
    rewrite E. reflexivity.
Qed.

(** The shoelace sum is the sum of two opposite cross products. *)
Lemma shoelace_is_two_crosses p0 p1 p2 p3 :
  calculateQuadrilateralArea [p0; p1; p2; p3]
  == Qabs (crossAt [p0; p1; p2; p3] 0 + crossAt [p0; p1; p2; p3] 2) / 2.
Proof.
  cbv beta iota zeta delta
    [calculateQuadrilateralArea crossAt JS.Math_abs fold_left seq length JS.at_ nth
     Nat.add Nat.modulo Nat.divmod Nat.sub fst snd].
  apply Qmult_comp; [|reflexivity]. apply Qabs_wd. ring.
Qed.

Section Accepted.
Context {host : Host}.

(** X14.  A quadrilateral accepted by [evaluateDetectionQuality] is strictly
    convex: it has four corners, a positive area, and its four cross
    products are all positive or all negative.  In particular corners on a
    line are never accepted. *)
Theorem accepted_is_strictly_convex videoRef corners :
  evaluateDetectionQuality videoRef corners = true ->
  length corners = 4%nat
  /\ 0 < calculateQuadrilateralArea corners
  /\ (Forall (fun i => 0 < crossAt corners i) (seq 0 4)
      \/ Forall (fun i => crossAt corners i < 0) (seq 0 4)).
Proof.
  unfold evaluateDetectionQuality.
  destruct videoRef as [video|]; [|discriminate].
  destruct (Nat.eqb_spec (length corners) 4) as [L|L]; cbn [negb]; [|discriminate].
  cbv zeta. rewrite !andb_true_iff. intros [[[Lo _] _] Convex].
  apply ltb_lt in Lo. split; [exact L|].
  destruct corners as [|p0 [|p1 [|p2 [|p3 [|? ?]]]]]; try discriminate.
  set (corners := [p0; p1; p2; p3]) in *.
  assert (A : 0 < calculateQuadrilateralArea corners).
  { assert (N : 0 <= calculateQuadrilateralArea corners).
    { unfold corners. rewrite shoelace_is_two_crosses.
      apply Qle_shift_div_l; [reflexivity|]. rewrite Qmult_0_l. apply Qabs_nonneg. }
    destruct (Qlt_le_dec 0 (calculateQuadrilateralArea corners)) as [P|Z]; [exact P|].
    exfalso. assert (E : calculateQuadrilateralArea corners == 0) by lra.
    rewrite E in Lo. unfold Qdiv in Lo. rewrite Qmult_0_l in Lo.
    revert Lo. apply Qle_not_lt. discriminate. }
  split; [exact A|].
  apply (isConvexQuadrilateral_four p0 p1 p2 p3) in Convex. fold corners in Convex.
  destruct Convex as (S1 & S2 & S3).
  unfold corners in A. rewrite shoelace_is_two_crosses in A. fold corners in A.
  assert (NZ : ~ crossAt corners 0 + crossAt corners 2 == 0).
  { intros E. rewrite E in A. revert A. apply Qle_not_lt. discriminate. }
  clearbody corners.
  destruct (Math_sign_cases (crossAt corners 0)) as [[P E]|[[Z E]|[N E]]].
  - left. repeat constructor; try exact P; apply Math_sign_pos;
      [exact (Qeq_trans _ _ _ S1 E) | exact (Qeq_trans _ _ _ S2 E)
       | exact (Qeq_trans _ _ _ S3 E)].
  - exfalso. apply NZ.
    pose proof (proj1 (Math_sign_zero _) (Qeq_trans _ _ _ S2 E)) as Z2.
    rewrite Z, Z2. reflexivity.
  - right. repeat constructor; try exact N; apply Math_sign_neg;
      [exact (Qeq_trans _ _ _ S1 E) | exact (Qeq_trans _ _ _ S2 E)
       | exact (Qeq_trans _ _ _ S3 E)].
Qed.
End Accepted.

Lemma all_signs_equal (s0 s1 s2 s3 t0 t1 t2 t3 : Q) :
  (t0 == s1 /\ t1 == s2 /\ t2 == s3 /\ t3 == s0)
  \/ (t0 == - s1 /\ t1 == - s0 /\ t2 == - s3 /\ t3 == - s2) ->
  (s1 == s0 /\ s2 == s0 /\ s3 == s0) <-> (t1 == t0 /\ t2 == t0 /\ t3 == t0).
Proof. intros [(E0 & E1 & E2 & E3)|(E0 & E1 & E2 & E3)]; split; intros (A & B & C); lra. Qed.

(** X15.  Area and convexity do not depend on where the corner list starts
    or in which direction it runs: rotating the four corners by one place
    or reversing them leaves [calculateQuadrilateralArea] and
    [isConvexQuadrilateral] unchanged. *)
Theorem area_and_convexity_by_cycle p0 p1 p2 p3 :
  calculateQuadrilateralArea [p1; p2; p3; p0] == calculateQuadrilateralArea [p0; p1; p2; p3]
  /\ calculateQuadrilateralArea [p3; p2; p1; p0] == calculateQuadrilateralArea [p0; p1; p2; p3]
  /\ isConvexQuadrilateral [p1; p2; p3; p0] = isConvexQuadrilateral [p0; p1; p2; p3]
  /\ isConvexQuadrilateral [p3; p2; p1; p0] = isConvexQuadrilateral [p0; p1; p2; p3].
Proof.
  assert (Area : forall q0 q1 q2 q3 r0 r1 r2 r3,
             crossAt [q0; q1; q2; q3] 0 + crossAt [q0; q1; q2; q3] 2
             == crossAt [r0; r1; r2; r3] 0 + crossAt [r0; r1; r2; r3] 2
             \/ crossAt [q0; q1; q2; q3] 0 + crossAt [q0; q1; q2; q3] 2
                == - (crossAt [r0; r1; r2; r3] 0 + crossAt [r0; r1; r2; r3] 2) ->
             calculateQuadrilateralArea [q0; q1; q2; q3]
             == calculateQuadrilateralArea [r0; r1; r2; r3]).
  { intros q0 q1 q2 q3 r0 r1 r2 r3 E. rewrite !shoelace_is_two_crosses.
    apply Qmult_comp; [|reflexivity].
    destruct E as [E|E]; rewrite E; [reflexivity | apply Qabs_opp]. }
  assert (Rot : forall i j, In (i, j) [(0, 1); (1, 2); (2, 3); (3, 0)]%nat ->
             crossAt [p1; p2; p3; p0] i == crossAt [p0; p1; p2; p3] j).
  { intros i j I. cbn in I.
    repeat (destruct I as [I|I]; [injection I as <- <-|]); try contradiction;
      cbv beta iota zeta delta
        [crossAt length JS.at_ nth Nat.add Nat.modulo Nat.divmod Nat.sub fst snd];
      ring. }
  assert (Rev : forall i j, In (i, j) [(0, 1); (1, 0); (2, 3); (3, 2)]%nat ->
             crossAt [p3; p2; p1; p0] i == - crossAt [p0; p1; p2; p3] j).
  { intros i j I. cbn in I.
    repeat (destruct I as [I|I]; [injection I as <- <-|]); try contradiction;
      cbv beta iota zeta delta
        [crossAt length JS.at_ nth Nat.add Nat.modulo Nat.divmod Nat.sub fst snd];
      ring. }
  split; [|split; [|split]].
  - apply Area. left.
    cbv beta iota zeta delta
      [crossAt length JS.at_ nth Nat.add Nat.modulo Nat.divmod Nat.sub fst snd].
    ring.
  - apply Area. right.
    cbv beta iota zeta delta
      [crossAt length JS.at_ nth Nat.add Nat.modulo Nat.divmod Nat.sub fst snd].
    ring.
  - apply eq_true_iff_eq.
    rewrite (isConvexQuadrilateral_four p1 p2 p3 p0), (isConvexQuadrilateral_four p0 p1 p2 p3).
    symmetry. apply all_signs_equal. left.
    rewrite (Rot 0 1)%nat, (Rot 1 2)%nat, (Rot 2 3)%nat, (Rot 3 0)%nat by (cbn; auto 6).
    repeat split; reflexivity.
  - apply eq_true_iff_eq.
    rewrite (isConvexQuadrilateral_four p3 p2 p1 p0), (isConvexQuadrilateral_four p0 p1 p2 p3).
    symmetry. apply all_signs_equal. right.
    rewrite (Rev 0 1)%nat, (Rev 1 0)%nat, (Rev 2 3)%nat, (Rev 3 2)%nat by (cbn; auto 6).
    rewrite !Math_sign_opp. repeat split; reflexivity.
Qed.

(** * Upright rectangles: the simulated detection and the upload fallbacks *)

Lemma rectangle_centroid l t r b :
  x (centroid (rectangleCorners l t r b)) == (l + r) / 2
  /\ y (centroid (rectangleCorners l t r b)) == (t + b) / 2.
Proof.
  unfold centroid, rectangleCorners. cbn [fold_left length x y].
  change (inject_Z (Z.of_nat 4)) with 4. split; field.
Qed.

Lemma rectangle_convex l t r b :
  l < r -> t < b -> isConvexQuadrilateral (rectangleCorners l t r b) = true.
Proof.
  intros H V. unfold rectangleCorners. apply isConvexQuadrilateral_four.
  assert (C : forall i, (i < 4)%nat ->
            crossAt (rectangleCorners l t r b) i == (r - l) * (b - t)).
  { intros i Hi. destruct i as [|[|[|[|i]]]]; try lia;
      cbv beta iota zeta delta
        [rectangleCorners crossAt length JS.at_ nth Nat.add Nat.modulo Nat.divmod
         Nat.sub fst snd x y];
      ring. }
  unfold rectangleCorners in C.
  rewrite (C 0%nat), (C 1%nat), (C 2%nat), (C 3%nat) by lia.
  repeat split; reflexivity.
Qed.

Lemma rectangle_halves l t r b :
  t < b ->
  topHalf (rectangleCorners l t r b) = [mkPoint l t; mkPoint r t]
  /\ bottomHalf (rectangleCorners l t r b) = [mkPoint r b; mkPoint l b].
Proof.
  intros V. destruct (rectangle_centroid l t r b) as [_ Cy].
  unfold topHalf, bottomHalf.
  generalize dependent (y (centroid (rectangleCorners l t r b))). intros c Cy.
  assert (Half : (t + b) / 2 == (t + b) * (1 # 2)) by field.
  assert (T : JS.ltb t c = true) by (apply ltb_lt; lra).
  assert (B : JS.ltb b c = false) by (apply ltb_ge; lra).
  unfold rectangleCorners. cbn [filter y]. rewrite !geb_ltb, T, B. split; reflexivity.
Qed.

(** An upright rectangle is in the order both top/bottom splits produce. *)
Lemma rectangle_split_fixed l t r b :
  l < r -> t < b ->
  DocumentDetection.sortCorners (rectangleCorners l t r b) = rectangleCorners l t r b
  /\ ImageProcessing.sortCorners (rectangleCorners l t r b) = rectangleCorners l t r b.
Proof.
  intros H V. destruct (rectangle_halves l t r b V) as [T B].
  assert (A : assemble (JS.sort byX (topHalf (rectangleCorners l t r b)))
                (JS.sort byX (bottomHalf (rectangleCorners l t r b)))
              = rectangleCorners l t r b).
  { rewrite T, B. cbn [JS.sort JS.insert]. unfold byX. cbn [x].
    assert (F : JS.ltb 0 (l - r) = false) by (apply ltb_ge; lra).
    assert (G : JS.ltb 0 (r - l) = true) by (apply ltb_lt; lra).
    rewrite F, G. reflexivity. }
  unfold ImageProcessing.sortCorners.
  rewrite DocumentDetection_sortCorners_unfold, ImageProcessing_sortedCorners_unfold, A.
  split; reflexivity.
Qed.

(** ... and in the order of the quadrant sort. *)
Lemma rectangle_quadrant_fixed {host : Host} l t r b :
  l < r -> t < b ->
  DocumentCamera.sortCorners (rectangleCorners l t r b) = rectangleCorners l t r b.
Proof.
  intros H V. rewrite DocumentCamera_sortCorners_unfold. cbn [length Nat.eqb negb].
  apply sort_fixed.
  destruct (rectangle_centroid l t r b) as [Cx Cy].
  set (c := centroid (rectangleCorners l t r b)) in *.
  assert (Hx : (l + r) / 2 == (l + r) * (1 # 2)) by field.
  assert (Hy : (t + b) / 2 == (t + b) * (1 # 2)) by field.
  assert (Lx : JS.ltb l (x c) = true) by (apply ltb_lt; lra).
  assert (Rx : JS.ltb r (x c) = false) by (apply ltb_ge; lra).
  assert (Ty : JS.ltb t (y c) = true) by (apply ltb_lt; lra).
  assert (By : JS.ltb b (y c) = false) by (apply ltb_ge; lra).
  assert (Q0 : getQuadrant (mkPoint l t) c = 0)
    by (unfold getQuadrant; cbn [x y]; now rewrite Lx, Ty).
  assert (Q1 : getQuadrant (mkPoint r t) c = 1)
    by (unfold getQuadrant; cbn [x y]; now rewrite !geb_ltb, Rx, Ty).
  assert (Q2 : getQuadrant (mkPoint r b) c = 2)
    by (unfold getQuadrant; cbn [x y]; now rewrite !geb_ltb, Rx, By).
  assert (Q3 : getQuadrant (mkPoint l b) c = 3)
    by (unfold getQuadrant; cbn [x y]; now rewrite !geb_ltb, Lx, By).
  clearbody c. unfold rectangleCorners.
  repeat constructor; unfold JS.inOrder, compareCorners;
    rewrite ?Q0, ?Q1, ?Q2, ?Q3; cbn; discriminate.
Qed.

Lemma cropRectangle_of_input corners :
  let '(minX, minY, cropWidth, cropHeight) := ImageProcessing.cropRectangle corners in
  minX == JS.Math_min (map x corners) /\ minY == JS.Math_min (map y corners)
  /\ cropWidth == JS.Math_max (map x corners) - JS.Math_min (map x corners)
  /\ cropHeight == JS.Math_max (map y corners) - JS.Math_min (map y corners).
Proof.
  unfold ImageProcessing.cropRectangle. cbv zeta.
  pose proof (Permutation_sym (ImageProcessing_sortCorners_perm corners)) as S.
  pose proof (Math_min_perm _ _ (Permutation_map x S)) as E1.
  pose proof (Math_min_perm _ _ (Permutation_map y S)) as E2.
  pose proof (Math_max_perm _ _ (Permutation_map x S)) as E3.
  pose proof (Math_max_perm _ _ (Permutation_map y S)) as E4.
  repeat split; lra.
Qed.

Lemma two_valued_extremes lo hi xs :
  lo <= hi -> In lo xs -> In hi xs ->
  (forall v, In v xs -> v == lo \/ v == hi) ->
  JS.Math_min xs == lo /\ JS.Math_max xs == hi.
Proof.
  intros L Ilo Ihi Two.
  assert (N : xs <> []) by (intros ->; contradiction).
  destruct (Math_min_spec xs N) as (Min & v & Iv & Ev).
  destruct (Math_max_spec xs N) as (Max & w & Iw & Ew).
  pose proof (Min lo Ilo). pose proof (Max hi Ihi).
  destruct (Two v Iv), (Two w Iw); split; lra.
Qed.

Lemma rectangle_crop l t r b :
  l <= r -> t <= b ->
  let '(minX, minY, cropWidth, cropHeight) :=
    ImageProcessing.cropRectangle (rectangleCorners l t r b) in
  minX == l /\ minY == t /\ cropWidth == r - l /\ cropHeight == b - t.
Proof.
  intros H V.
  pose proof (cropRectangle_of_input (rectangleCorners l t r b)) as Box.
  destruct (ImageProcessing.cropRectangle (rectangleCorners l t r b))
    as [[[minX minY] cropWidth] cropHeight].
  destruct Box as (E1 & E2 & E3 & E4).
  destruct (two_valued_extremes l r (map x (rectangleCorners l t r b)) H)
    as [MinX MaxX]; cbn; auto.
  { intros v I. repeat (destruct I as [<-|I]; [(left + right); reflexivity|]).
    contradiction. }
  destruct (two_valued_extremes t b (map y (rectangleCorners l t r b)) V)
    as [MinY MaxY]; cbn; auto.
  { intros v I. repeat (destruct I as [<-|I]; [(left + right); reflexivity|]).
    contradiction. }
  repeat split; lra.
Qed.


Section Simulated.
Context {host : Host}.

(** The corners set by the simulated detection. *)
Lemma simulated_corners refs video s :
  videoRef refs = Some video ->
  (0 < videoWidth video)%Z -> (0 < videoHeight video)%Z ->
  exists l t r b,
    detectedCorners (simulateDocumentDetection refs s) = Some (rectangleCorners l t r b)
    /\ 0 <= l /\ l < r /\ r <= inject_Z (videoWidth video)
    /\ 0 <= t /\ t < b /\ b <= inject_Z (videoHeight video)
    /\ l + r == inject_Z (videoWidth video) /\ t + b == inject_Z (videoHeight video).
Proof.
  intros V Pw Ph. unfold simulateDocumentDetection. rewrite V. cbv zeta.
  set (w := inject_Z (videoWidth video)).
  set (h := inject_Z (videoHeight video)).
  assert (Qw : 0 < w) by (unfold w; rewrite <- (Zlt_Qlt 0); exact Pw).
  assert (Qh : 0 < h) by (unfold h; rewrite <- (Zlt_Qlt 0); exact Ph).
  assert (Half : forall a, a / 2 == a * (1 # 2)) by (intros a; field).
  destruct (JS.ltb h w) eqn:Wide; [apply ltb_lt in Wide|apply ltb_ge in Wide].
  - set (dh := h * 0.7). set (dw := dh / 1.414).
    assert (Ew : dw == h * (700 # 1414)) by (unfold dw, dh; field).
    exists (w / 2 - dw / 2), (h / 2 - dh / 2), (w / 2 + dw / 2), (h / 2 + dh / 2).
    split; [now destruct s|]. unfold dh in *. rewrite !Half. repeat split; lra.
  - set (dw := w * 0.7). set (dh := dw * 1.414).
    exists (w / 2 - dw / 2), (h / 2 - dh / 2), (w / 2 + dw / 2), (h / 2 + dh / 2).
    split; [now destruct s|]. unfold dh, dw in *. rewrite !Half. repeat split; lra.
Qed.


(** X18.  Switching to the simulated detection with auto mode on and no
    capture under way captures at once: the auto-capture effect fires on the
    state the simulation leaves and, with the canvas in place, its
    [handleCapture] hands the simulated corners to [onCapture]. *)
Theorem simulated_detection_captures refs video imageUri s :
  videoRef refs = Some video -> canvasRef refs = true -> canvasContext refs = true ->
  autoMode s = true -> autoCapturing s = false ->
  exists corners,
    detectedCorners (simulateDocumentDetection refs s) = Some corners
    /\ length corners = 4%nat
    /\ fires (simulateDocumentDetection refs s) = true
    /\ snd (autoCapture refs imageUri (simulateDocumentDetection refs s))
       = Some (imageUri, corners).
Proof.
  intros V Cv Cx M A.
  destruct (simulateDocumentDetection_fields refs video s V)
    as (S1 & _ & _ & M1 & A1 & corners & D1 & L1).
  cbv zeta in S1, M1, A1, D1.
  set (s' := simulateDocumentDetection refs s) in *.
  exists corners. split; [exact D1|]. split; [exact L1|].
  destruct (autoCaptureEffect_loud s') as [delay E];
    [congruence | congruence | right; lia |].
  split.
  - unfold fires. now rewrite E.
  - unfold autoCapture. rewrite E. unfold handleCapture. rewrite V, Cv, Cx.
    replace (detectedCorners (setAutoCapturing true s')) with (Some corners)
      by (rewrite <- D1; now destruct s').
    reflexivity.
Qed.
End Simulated.

(** * The selection of the document contour *)

(** The state of the selection loop after the first [n] contours. *)
Lemma largestQuadrilateral_prefix minArea contours n :
  (n <= length contours)%nat ->
  let '(maxArea, maxContourIndex) :=
    fold_left
      (fun acc i =>
         let '(maxArea, maxContourIndex) := acc in
         let contour := nth i contours (mkContour 0 []) in
         let area := contourArea contour in
         if JS.ltb minArea area then
           if (length (approx contour) =? 4)%nat && JS.ltb maxArea area
           then (area, Z.of_nat i)
           else (maxArea, maxContourIndex)
         else (maxArea, maxContourIndex))
      (seq 0 n) (0, (-1)%Z) in
  (forall j contour, (j < n)%nat -> nth_error contours j = Some contour ->
                qualifies minArea contour -> contourArea contour <= maxArea)
  /\ ((maxContourIndex = -1)%Z /\ maxArea = 0
      \/ exists i contour,
          maxContourIndex = Z.of_nat i /\ (i < n)%nat
          /\ nth_error contours i = Some contour
          /\ qualifies minArea contour /\ maxArea = contourArea contour
          /\ forall j other, (j < i)%nat -> nth_error contours j = Some other ->
                        qualifies minArea other ->
                        contourArea other < contourArea contour).
Proof.
  induction n as [|n IH]; intros L.
  - cbn. split; [intros j contour Hj; lia | now left].
  - rewrite seq_S, fold_left_app. cbn [fold_left Nat.add].
    specialize (IH ltac:(lia)).
    destruct (fold_left _ (seq 0 n) (0, (-1)%Z)) as [maxArea maxContourIndex].
    destruct IH as [Below Chosen].
    destruct (nth_error contours n) as [c|] eqn:N;
      [|apply nth_error_None in N; lia].
    rewrite (nth_error_nth _ _ _ N).
    assert (Keep : forall j contour, (j < S n)%nat -> nth_error contours j = Some contour ->
                qualifies minArea contour ->
                (qualifies minArea c -> contourArea c <= maxArea) ->
                contourArea contour <= maxArea).
    { intros j contour Hj E Q Last.
      destruct (Nat.eq_dec j n) as [->|Ne].
      - rewrite N in E. injection E as <-. now apply Last.
      - apply (Below j); [lia | exact E | exact Q]. }
    destruct (JS.ltb minArea (contourArea c)) eqn:Big.
    + apply ltb_lt in Big.
      destruct (Nat.eqb_spec (length (approx c)) 4) as [Four|NotFour]; cbn [andb].
      * destruct (JS.ltb maxArea (contourArea c)) eqn:Beats;
          [apply ltb_lt in Beats|apply ltb_ge in Beats].
        -- split.
           ++ intros j contour Hj E Q.
              destruct (Nat.eq_dec j n) as [->|Ne].
              ** rewrite N in E. injection E as <-. apply Qle_refl.
              ** pose proof (Below j contour ltac:(lia) E Q). lra.
           ++ right. exists n, c. repeat split; try assumption; try lia.
              intros j other Hj E Q. pose proof (Below j other Hj E Q). lra.
        -- split.
           ++ intros j contour Hj E Q. apply (Keep j contour Hj E Q). now intros _.
           ++ destruct Chosen as [None|(i & ci & E1 & Hi & E2 & Q & E3 & First)];
                [now left|].
              right. exists i, ci. repeat split; try assumption; try apply Q. lia.
      * split.
        -- intros j contour Hj E Q. apply (Keep j contour Hj E Q).
           intros [_ Four]. contradiction.
        -- destruct Chosen as [None|(i & ci & E1 & Hi & E2 & Q & E3 & First)];
             [now left|].
           right. exists i, ci. repeat split; try assumption; try apply Q. lia.
    + apply ltb_ge in Big. split.
      * intros j contour Hj E Q. apply (Keep j contour Hj E Q).
        intros [Lt _]. lra.
      * destruct Chosen as [None|(i & ci & E1 & Hi & E2 & Q & E3 & First)];
          [now left|].
        right. exists i, ci. repeat split; try assumption; try apply Q. lia.
Qed.

Lemma four_points (points : list Point) :
  length points = 4%nat ->
  [JS.at_ origin points 0; JS.at_ origin points 1;
   JS.at_ origin points 2; JS.at_ origin points 3] = points.
Proof.
  intros L. destruct points as [|p0 [|p1 [|p2 [|p3 [|? ?]]]]]; try discriminate.
  reflexivity.
Qed.

Section Selection.
Context {host : Host}.


(** X20.  With the video element, the processing canvas, its context and
    OpenCV in place, and OpenCV raising no exception, [detectDocumentWithCV]
    returns nothing exactly when no contour is both approximated by four
    points and larger than 2 % of the frame. *)
Theorem no_document_iff_no_candidate refs vision contours video :
  videoRef refs = Some video ->
  processingCanvasRef vision = true -> processingContext vision = true ->
  cv vision = true ->
  (0 <= videoWidth video)%Z -> (0 <= videoHeight video)%Z ->
  let minArea := inject_Z (videoWidth video) * inject_Z (videoHeight video) * 0.02 in
  detectDocumentWithCV refs vision contours = None
  <-> forall contour, In contour contours -> ~ qualifies minArea contour.
Proof.
  intros V Cv Cx Lib Pw Ph minArea.
  assert (M : 0 <= minArea).
  { unfold minArea.
    assert (0 <= inject_Z (videoWidth video)) by (rewrite <- (Zle_Qle 0); exact Pw).
    assert (0 <= inject_Z (videoHeight video)) by (rewrite <- (Zle_Qle 0); exact Ph).
    nra. }
  unfold detectDocumentWithCV. rewrite V, Cv, Cx, Lib. cbn [negb orb]. cbv zeta.
  fold minArea.
  pose proof (largestQuadrilateral_prefix minArea contours (length contours) (le_n _))
    as Loop.
  unfold largestQuadrilateral.
  destruct (fold_left _ (seq 0 (length contours)) (0, (-1)%Z))
    as [maxArea maxContourIndex].
  destruct Loop as [Below Chosen].
  destruct (Z.eqb_spec maxContourIndex (-1)) as [E|NE]; cbn [negb].
  - split; [|reflexivity]. intros _ contour I Q.
    destruct Chosen as [[_ Zero]|(i & c & E1 & _)]; [|lia].
    apply In_nth_error in I. destruct I as [j I].
    pose proof (Below j contour ltac:(apply nth_error_Some; congruence) I Q) as Le.
    destruct Q as [Lt _]. rewrite Zero in Le. lra.
  - split; [discriminate|]. intros None.
    destruct Chosen as [[E _]|(i & c & E1 & Hi & E2 & Q & _)]; [contradiction|].
    exfalso. apply (None c); [|exact Q]. now apply nth_error_In with i.
Qed.
End Selection.

(** * The further properties on sample data *)


Lemma quadrant_sort_by_quadrant_witness :
  StronglySorted Qle
    (map (fun p => getQuadrant p (centroid shuffledSquare))
       (DocumentCamera.sortCorners (host := floorHost) shuffledSquare)).
Proof. apply (quadrant_sort_by_quadrant (host := floorHost) shuffledSquare). reflexivity. Defined.


Lemma crop_order_independent_witness :
  let '(minX, minY, cropWidth, cropHeight) := ImageProcessing.cropRectangle shuffledSquare in
  let '(minX', minY', cropWidth', cropHeight') :=
    ImageProcessing.cropRectangle [pt 0 0; pt 10 10; pt 10 0; pt 0 10] in
  minX == minX' /\ minY == minY' /\ cropWidth == cropWidth' /\ cropHeight == cropHeight'.
Proof.
  apply (crop_order_independent shuffledSquare [pt 0 0; pt 10 10; pt 10 0; pt 0 10]).
  apply perm_swap.
Defined.


Lemma accepted_is_strictly_convex_witness :
  length page = 4%nat
  /\ 0 < calculateQuadrilateralArea page
  /\ (Forall (fun i => 0 < crossAt page i) (seq 0 4)
      \/ Forall (fun i => crossAt page i < 0) (seq 0 4)).
Proof.
  apply (accepted_is_strictly_convex (host := floorHost) (Some (mkVideo 1000 1000)) page).
  vm_compute. reflexivity.
Defined.



Lemma simulated_detection_captures_witness :
  exists corners,
    detectedCorners (simulateDocumentDetection refs1000 initialState) = Some corners
    /\ length corners = 4%nat
    /\ fires (simulateDocumentDetection refs1000 initialState) = true
    /\ snd (autoCapture refs1000 "frame" (simulateDocumentDetection refs1000 initialState))
       = Some ("frame"%string, corners).
Proof.
  apply (simulated_detection_captures refs1000 (mkVideo 1000 1000) "frame" initialState);
    reflexivity.
Defined.


Lemma no_document_iff_no_candidate_witness :
  detectDocumentWithCV (host := floorHost) refs1000 visionReady
    [mkContour 10 [pt 1 1; pt 4 1; pt 4 4; pt 1 4]] = None
  <-> forall contour, In contour [mkContour 10 [pt 1 1; pt 4 1; pt 4 4; pt 1 4]] ->
                 ~ qualifies (inject_Z 1000 * inject_Z 1000 * 0.02) contour.
Proof.
  apply (no_document_iff_no_candidate (host := floorHost) refs1000 visionReady
           [mkContour 10 [pt 1 1; pt 4 1; pt 4 4; pt 1 4]] (mkVideo 1000 1000));
    (reflexivity || (cbn; lia)).
Defined.

(** * The application shell *)

Lemma app_invariant events :
  forall s,
    forallb DocumentScannerApp.carriesImage events = true ->
    DocumentScannerApp.screen s <> DocumentScannerApp.Nothing ->
    (DocumentScannerApp.isBrowserCompatible s = false ->
     DocumentScannerApp.screen s <> DocumentScannerApp.CameraScreen) ->
    DocumentScannerApp.screen (DocumentScannerApp.run events s) <> DocumentScannerApp.Nothing
    /\ (DocumentScannerApp.isBrowserCompatible (DocumentScannerApp.run events s) = false ->
        DocumentScannerApp.screen (DocumentScannerApp.run events s)
        <> DocumentScannerApp.CameraScreen).
Proof.
  induction events as [|e rest IH]; intros s Ok Shown Compat; [now split|].
  cbn [forallb] in Ok. apply andb_true_iff in Ok. destruct Ok as [Ok1 Ok2].
  unfold DocumentScannerApp.run. cbn [fold_left].
  apply IH; [exact Ok2| |]; clear IH.
  - destruct e as [supported|error| | |imageUri corners|uri| |]; cbn in Ok1 |- *;
      unfold DocumentScannerApp.screen in *;
      destruct s as [st ci pi dc ce uf bc]; cbn in *;
      try (destruct supported); cbn in *;
      try rewrite Ok1; try (destruct st); try (destruct bc); try (destruct uf);
      cbn in *; try discriminate; try exact Shown.
  - destruct e as [supported|error| | |imageUri corners|uri| |]; cbn in Ok1 |- *;
      unfold DocumentScannerApp.screen in *;
      destruct s as [st ci pi dc ce uf bc]; cbn in *;
      try (destruct supported); cbn in *;
      try rewrite Ok1; intros B; try (rewrite B in * ); cbn in *;
      try (destruct st); try (destruct uf); cbn in *;
      try discriminate; try (destruct dc; destruct (JS.truthy ci); discriminate);
      try (destruct (JS.truthy pi); discriminate);
      try (now apply Compat).
Qed.

(** X21.  The application always has a screen to show: as long as the images
    handed over by the components are not the empty string, after any
    sequence of handler calls the state satisfies one of the render
    conditions, so a state in step "processing" has its image and corners
    and a state in step "preview" has its processed image. *)
Theorem app_always_shows_a_screen events :
  forallb DocumentScannerApp.carriesImage events = true ->
  DocumentScannerApp.screen
    (DocumentScannerApp.run events DocumentScannerApp.initialState)
  <> DocumentScannerApp.Nothing.
Proof.
  intros Ok.
  apply (app_invariant events DocumentScannerApp.initialState Ok); cbn; discriminate.
Qed.

(** X22.  On a browser without camera access the live camera is never
    mounted: once the mount check has found [getUserMedia] missing, whatever
    handlers run afterwards, a state in step "camera" shows the upload
    fallback. *)
Theorem unsupported_browser_never_shows_camera before after :
  forallb DocumentScannerApp.carriesImage (before ++ DocumentScannerApp.Mounted false :: after)
  = true ->
  (forall supported, ~ In (DocumentScannerApp.Mounted supported) after) ->
  DocumentScannerApp.screen
    (DocumentScannerApp.run (before ++ DocumentScannerApp.Mounted false :: after)
       DocumentScannerApp.initialState)
  <> DocumentScannerApp.CameraScreen.
Proof.
  intros Ok Once.
  assert (Keeps : forall events s,
             (forall supported, ~ In (DocumentScannerApp.Mounted supported) events) ->
             DocumentScannerApp.isBrowserCompatible (DocumentScannerApp.run events s)
             = DocumentScannerApp.isBrowserCompatible s).
  { induction events as [|e rest IH]; intros s No; [reflexivity|].
    unfold DocumentScannerApp.run. cbn [fold_left].
    fold (DocumentScannerApp.run rest (DocumentScannerApp.handle e s)).
    rewrite IH by (intros supported I; apply (No supported); now right).
    destruct e; try reflexivity. exfalso. apply (No isMediaDevicesSupported). now left. }
  unfold DocumentScannerApp.run in *. rewrite fold_left_app. cbn [fold_left].
  rewrite forallb_app in Ok. apply andb_true_iff in Ok. destruct Ok as [Ok1 Ok2].
  cbn [forallb DocumentScannerApp.carriesImage andb] in Ok2.
  set (s0 := fold_left (fun s e => DocumentScannerApp.handle e s) before
               DocumentScannerApp.initialState).
  assert (Shown0 : DocumentScannerApp.screen s0 <> DocumentScannerApp.Nothing).
  { apply (app_invariant before DocumentScannerApp.initialState Ok1); cbn; discriminate. }
  set (s1 := DocumentScannerApp.handle (DocumentScannerApp.Mounted false) s0).
  assert (B1 : DocumentScannerApp.isBrowserCompatible s1 = false) by reflexivity.
  assert (Shown1 : DocumentScannerApp.screen s1 <> DocumentScannerApp.Nothing).
  { unfold s1, DocumentScannerApp.screen in *. cbn.
    destruct (DocumentScannerApp.step s0); cbn; try discriminate; exact Shown0. }
  assert (Camera1 : DocumentScannerApp.screen s1 <> DocumentScannerApp.CameraScreen).
  { unfold s1, DocumentScannerApp.screen. cbn.
    destruct (DocumentScannerApp.step s0); cbn; try discriminate.
    - destruct (DocumentScannerApp.documentCorners s0),
        (JS.truthy (DocumentScannerApp.capturedImage s0)); discriminate.
    - destruct (JS.truthy (DocumentScannerApp.processedImage s0)); discriminate. }
  destruct (app_invariant after s1 Ok2 Shown1 (fun _ => Camera1)) as [_ Never].
  apply Never. unfold DocumentScannerApp.run. fold (DocumentScannerApp.run after s1).
  now rewrite Keeps.
Qed.

(** * The preview *)

Lemma preview_invariant events :
  forall s,
    In (DocumentPreview.rotation s) [0; 90; 180; 270]%Z ->
    DocumentPreview.zoomLevel s <= 3 ->
    In (DocumentPreview.rotation (DocumentPreview.run events s)) [0; 90; 180; 270]%Z
    /\ DocumentPreview.zoomLevel (DocumentPreview.run events s) <= 3.
Proof.
  induction events as [|e rest IH]; intros s R Z; [now split|].
  unfold DocumentPreview.run. cbn [fold_left]. apply IH; clear IH.
  - destruct e as [layout| | | | |]; cbn; try exact R.
    + unfold DocumentPreview.adjustZoom. destruct layout as [l|]; [|exact R].
      destruct (negb _); [exact R|]. destruct (_ || _); exact R.
    + cbn in R. destruct R as [<-|[<-|[<-|[<-|[]]]]]; cbn; auto.
  - destruct e as [layout| | | | |]; cbn; try exact Z.
    + unfold DocumentPreview.adjustZoom. destruct layout as [l|]; [|exact Z].
      destruct (negb _); [exact Z|]. destruct (_ || _); [exact Z|]. cbn.
      pose proof (Q.le_min_r (Qmin
        ((inject_Z (DocumentPreview.clientWidth l) - 32)
         / inject_Z (DocumentPreview.naturalWidth l))
        ((inject_Z (DocumentPreview.clientHeight l) - 32)
         / inject_Z (DocumentPreview.naturalHeight l))) 1). lra.
    + pose proof (Q.le_min_r (DocumentPreview.zoomLevel s + 0.25) 3). lra.
    + destruct (Q.max_spec (DocumentPreview.zoomLevel s - 0.25) 0.25) as [[_ E]|[_ E]];
        rewrite E; lra.
Qed.

(** X23.  In the preview the rotation is always one of 0, 90, 180 and 270
    degrees and the zoom never exceeds 300 %, whatever buttons are pressed
    and however the zoom is fitted to the screen. *)
Theorem preview_rotation_and_zoom_bounded events :
  In (DocumentPreview.rotation (DocumentPreview.run events DocumentPreview.initialState))
    [0; 90; 180; 270]%Z
  /\ DocumentPreview.zoomLevel (DocumentPreview.run events DocumentPreview.initialState) <= 3.
Proof.
  apply preview_invariant; cbn; [auto | discriminate].
Qed.


(** * The grayscale conversion *)

(** A number between two bytes is stored as a byte between them. *)
Lemma ToUint8Clamp_between (m M : Z) (q : Q) :
  (0 <= m)%Z -> (M <= 255)%Z -> inject_Z m <= q -> q <= inject_Z M ->
  (m <= JS.ToUint8Clamp (Some q) <= M)%Z.
Proof.
  intros Pm PM L U.
  assert (LM : (m <= M)%Z) by (rewrite Zle_Qle; lra).
  unfold JS.ToUint8Clamp.
  destruct (Qle_bool q 0) eqn:E0.
  { apply Qle_bool_iff in E0. split; [|lia].
    rewrite Zle_Qle. change (inject_Z 0) with 0. lra. }
  destruct (Qle_bool 255 q) eqn:E1.
  { apply Qle_bool_iff in E1. split; [lia|].
    rewrite Zle_Qle. change (inject_Z 255) with 255. lra. }
  assert (Fm : (m <= Qfloor q)%Z).
  { rewrite <- (Qfloor_Z m). now apply Qfloor_resp_le. }
  assert (FM : (Qfloor q <= M)%Z).
  { rewrite <- (Qfloor_Z M). now apply Qfloor_resp_le. }
  assert (Up : inject_Z (Qfloor q) < q -> (Qfloor q + 1 <= M)%Z).
  { intros Lt. assert (Lt' : (Qfloor q < M)%Z) by (rewrite Zlt_Qlt; lra). lia. }
  pose proof (Qfloor_le q) as Fl.
  cbv zeta. destruct (JS.ltb (inject_Z (Qfloor q) + (1 # 2)) q) eqn:E2.
  { apply ltb_lt in E2. split; [lia|]. apply Up. lra. }
  destruct (JS.ltb q (inject_Z (Qfloor q) + (1 # 2))) eqn:E3; [lia|].
  apply ltb_ge in E2. apply ltb_ge in E3.
  destruct (Z.even (Qfloor q)); [lia|]. split; [lia|]. apply Up. lra.
Qed.

Lemma ToUint8Clamp_byte (v : Z) :
  (0 <= v <= 255)%Z -> JS.ToUint8Clamp (Some (inject_Z v)) = v.
Proof.
  intros R.
  pose proof (ToUint8Clamp_between v v (inject_Z v) ltac:(lia) ltac:(lia)
                ltac:(apply Qle_refl) ltac:(apply Qle_refl)).
  lia.
Qed.

Lemma ToUint8Clamp_range (v : option Q) : (0 <= JS.ToUint8Clamp v <= 255)%Z.
Proof.
  destruct v as [q|]; [|cbn; lia]. unfold JS.ToUint8Clamp.
  destruct (Qle_bool q 0) eqn:E0; [lia|].
  destruct (Qle_bool 255 q) eqn:E1; [lia|].
  assert (P0 : 0 < q).
  { apply Qnot_le_lt. intros H. apply Qle_bool_iff in H. congruence. }
  assert (P1 : q < 255).
  { apply Qnot_le_lt. intros H. apply Qle_bool_iff in H. congruence. }
  assert (F0 : (0 <= Qfloor q)%Z).
  { change 0%Z with (Qfloor 0). apply Qfloor_resp_le. lra. }
  assert (F1 : (Qfloor q < 255)%Z).
  { rewrite Zlt_Qlt. pose proof (Qfloor_le q). change (inject_Z 255) with 255. lra. }
  cbv zeta. repeat match goal with |- context [if ?c then _ else _] => destruct c end; lia.
Qed.

(** The weights add up to one: the luminance lies between the least and the
    greatest channel. *)
Lemma luminance_between (r g b : Z) :
  exists q,
    DocumentDetection.luminance (Some r) (Some g) (Some b) = Some q
    /\ inject_Z (Z.min r (Z.min g b)) <= q <= inject_Z (Z.max r (Z.max g b)).
Proof.
  eexists. split; [reflexivity|].
  pose proof (Z.le_min_l r (Z.min g b)) as A1.
  pose proof (Z.le_min_r r (Z.min g b)) as A2.
  pose proof (Z.le_min_l g b) as A3. pose proof (Z.le_min_r g b) as A4.
  pose proof (Z.le_max_l r (Z.max g b)) as B1.
  pose proof (Z.le_max_r r (Z.max g b)) as B2.
  pose proof (Z.le_max_l g b) as B3. pose proof (Z.le_max_r g b) as B4.
  assert (Lr : inject_Z (Z.min r (Z.min g b)) <= inject_Z r) by (rewrite <- Zle_Qle; lia).
  assert (Lg : inject_Z (Z.min r (Z.min g b)) <= inject_Z g) by (rewrite <- Zle_Qle; lia).
  assert (Lb : inject_Z (Z.min r (Z.min g b)) <= inject_Z b) by (rewrite <- Zle_Qle; lia).
  assert (Ur : inject_Z r <= inject_Z (Z.max r (Z.max g b))) by (rewrite <- Zle_Qle; lia).
  assert (Ug : inject_Z g <= inject_Z (Z.max r (Z.max g b))) by (rewrite <- Zle_Qle; lia).
  assert (Ub : inject_Z b <= inject_Z (Z.max r (Z.max g b))) by (rewrite <- Zle_Qle; lia).
  set (lo := inject_Z (Z.min r (Z.min g b))) in *.
  set (hi := inject_Z (Z.max r (Z.max g b))) in *.
  set (qr := inject_Z r) in *. set (qg := inject_Z g) in *. set (qb := inject_Z b) in *.
  clearbody lo hi qr qg qb.
  change 0.299 with (299 # 1000). change 0.587 with (587 # 1000).
  change 0.114 with (114 # 1000). split; lra.
Qed.

Lemma grayPixel_between r g b a :
  (0 <= r <= 255)%Z -> (0 <= g <= 255)%Z -> (0 <= b <= 255)%Z -> (0 <= a <= 255)%Z ->
  exists gray,
    grayPixel (r, g, b, a) = (gray, gray, gray, a)
    /\ (Z.min r (Z.min g b) <= gray <= Z.max r (Z.max g b))%Z.
Proof.
  intros Rr Rg Rb Ra. unfold grayPixel.
  destruct (luminance_between r g b) as (q & E & L & U). rewrite E.
  exists (JS.ToUint8Clamp (Some q)). split.
  - now rewrite (ToUint8Clamp_byte a Ra).
  - apply ToUint8Clamp_between; [lia | lia | exact L | exact U].
Qed.

Lemma grayPixel_idempotent pixel : grayPixel (grayPixel pixel) = grayPixel pixel.
Proof.
  destruct pixel as [[[r g] b] a]. unfold grayPixel at 2.
  set (gray := JS.ToUint8Clamp _). set (alpha := JS.ToUint8Clamp _).
  assert (Rg : (0 <= gray <= 255)%Z) by apply ToUint8Clamp_range.
  assert (Ra : (0 <= alpha <= 255)%Z) by apply ToUint8Clamp_range.
  destruct (grayPixel_between gray gray gray alpha Rg Rg Rg Ra) as (y & E & B).
  rewrite E. f_equal. assert (y = gray) by lia. now subst y.
Qed.

Lemma flatten_app ps qs : flatten (ps ++ qs) = flatten ps ++ flatten qs.
Proof.
  induction ps as [|[[[r g] b] a] ps IH]; [reflexivity|]. cbn. now rewrite IH.
Qed.

Lemma flatten_length ps : length (flatten ps) = (4 * length ps)%nat.
Proof.
  induction ps as [|[[[r g] b] a] ps IH]; [reflexivity|]. cbn [flatten length]. lia.
Qed.

(** Bytes that make whole pixels are the bytes of a list of pixels. *)
Lemma flatten_exists n : forall data,
  length data = (4 * n)%nat -> exists pixels, data = flatten pixels /\ length pixels = n.
Proof.
  induction n as [|n IH]; intros data L.
  - destruct data; [|discriminate]. now exists [].
  - destruct data as [|r [|g [|b [|a rest]]]]; cbn in L; try lia.
    destruct (IH rest ltac:(lia)) as (ps & -> & Lp).
    exists ((r, g, b, a) :: ps). split; [reflexivity|]. cbn. now rewrite Lp.
Qed.

Lemma flatten_nth ps : forall p r g b a,
  nth_error ps p = Some (r, g, b, a) ->
  nth_error (flatten ps) (4 * p) = Some r
  /\ nth_error (flatten ps) (4 * p + 1) = Some g
  /\ nth_error (flatten ps) (4 * p + 2) = Some b
  /\ nth_error (flatten ps) (4 * p + 3) = Some a.
Proof.
  induction ps as [|[[[r0 g0] b0] a0] ps IH]; intros p r g b a E.
  - destruct p; discriminate.
  - destruct p as [|p].
    + cbn in E. injection E as -> -> -> ->. now repeat split.
    + cbn [nth_error] in E. specialize (IH p r g b a E).
      replace (4 * S p)%nat with (S (S (S (S (4 * p))))) by lia.
      exact IH.
Qed.

Lemma store_app pre post n j v :
  length pre = n ->
  JS.store (pre ++ post) (n + j) v = pre ++ JS.store post j v.
Proof.
  intros <-. induction pre as [|a pre IH]; [reflexivity|]. cbn. now rewrite IH.
Qed.

Lemma store_app_first pre post n v :
  length pre = n -> JS.store (pre ++ post) n v = pre ++ JS.store post 0 v.
Proof.
  intros L. rewrite <- (store_app pre post n 0 v L). now rewrite Nat.add_0_r.
Qed.

Lemma nth_error_app_offset {A} (pre post : list A) n j :
  length pre = n -> nth_error (pre ++ post) (n + j) = nth_error post j.
Proof.
  intros <-. induction pre as [|a pre IH]; [reflexivity|]. exact IH.
Qed.

Lemma nth_error_app_first {A} (pre post : list A) n :
  length pre = n -> nth_error (pre ++ post) n = nth_error post 0.
Proof.
  intros L. rewrite <- (nth_error_app_offset pre post n 0 L). now rewrite Nat.add_0_r.
Qed.

(** The loop of [convertToGrayscale] on whole pixels: started on zeros, it
    stores the gray pixel of every pixel. *)
Lemma grayscale_loop data body :
  body = (fun grayscaleData i =>
            let r := nth_error data i in
            let g := nth_error data (i + 1) in
            let b := nth_error data (i + 2) in
            let a := nth_error data (i + 3) in
            let gray := DocumentDetection.luminance r g b in
            let grayscaleData := JS.store grayscaleData i gray in
            let grayscaleData := JS.store grayscaleData (i + 1) gray in
            let grayscaleData := JS.store grayscaleData (i + 2) gray in
            JS.store grayscaleData (i + 3) (option_map inject_Z a)) ->
  forall post pre,
    data = flatten (pre ++ post) ->
    fold_left body (map (fun k => (4 * k)%nat) (seq (length pre) (length post)))
      (flatten (map grayPixel pre) ++ repeat 0%Z (4 * length post))
    = flatten (map grayPixel (pre ++ post)).
Proof.
  intros Body. induction post as [|[[[r g] b] a] post IH]; intros pre D.
  - cbn. now rewrite !app_nil_r.
  - cbn [length seq map fold_left].
    replace (pre ++ (r, g, b, a) :: post) with ((pre ++ [(r, g, b, a)]) ++ post) in *
      by now rewrite <- app_assoc.
    specialize (IH (pre ++ [(r, g, b, a)]) D).
    rewrite <- IH. rewrite length_app. cbn [length].
    replace (length pre + 1)%nat with (S (length pre)) by lia.
    f_equal.
    assert (Lg : length (flatten (map grayPixel pre)) = (4 * length pre)%nat)
      by now rewrite flatten_length, length_map.
    assert (Ld : length (flatten pre) = (4 * length pre)%nat) by apply flatten_length.
    rewrite Body. cbv zeta.
    rewrite D, !flatten_app. rewrite <- !app_assoc.
    set (n := (4 * length pre)%nat) in *.
    rewrite (nth_error_app_first _ _ n Ld), !(nth_error_app_offset _ _ n _ Ld).
    cbn [flatten app nth_error option_map].
    replace (4 * S (length post))%nat with (S (S (S (S (4 * length post))))) by lia.
    cbn [repeat].
    rewrite (store_app_first _ _ n _ Lg). cbn [JS.store].
    rewrite (store_app _ _ n 1 _ Lg). cbn [JS.store].
    rewrite (store_app _ _ n 2 _ Lg). cbn [JS.store].
    rewrite (store_app _ _ n 3 _ Lg). cbn [JS.store].
    rewrite map_app, flatten_app, <- app_assoc. reflexivity.
Qed.

(** On a well-formed image the conversion succeeds and is pixel by pixel. *)
Lemma convertToGrayscale_flatten img :
  (0 < DocumentDetection.width img)%Z -> (0 < DocumentDetection.height img)%Z ->
  Z.of_nat (length (DocumentDetection.data img))
  = (DocumentDetection.width img * DocumentDetection.height img * 4)%Z ->
  exists pixels,
    DocumentDetection.data img = flatten pixels
    /\ DocumentDetection.convertToGrayscale img
       = Some (DocumentDetection.mkImageData (DocumentDetection.width img)
                 (DocumentDetection.height img) (flatten (map grayPixel pixels))).
Proof.
  intros W H L. destruct img as [w h data]. cbn [DocumentDetection.width
    DocumentDetection.height DocumentDetection.data] in *.
  assert (Ln : length data = (4 * Z.to_nat (w * h))%nat) by lia.
  destruct (flatten_exists _ _ Ln) as (pixels & D & Lp).
  exists pixels. split; [exact D|].
  unfold DocumentDetection.convertToGrayscale, DocumentDetection.newUint8ClampedArray.
  cbn [DocumentDetection.width DocumentDetection.height DocumentDetection.data].
  assert (N : (w * h * 4 <? 0)%Z = false) by (apply Z.ltb_ge; nia). rewrite N.
  unfold DocumentDetection.pixelOffsets.
  replace ((length data + 3) / 4)%nat with (length pixels).
  2:{ rewrite Ln, Lp. apply Nat.div_unique with (r := 3%nat); lia. }
  replace (Z.to_nat (w * h * 4)) with (4 * length pixels)%nat by lia.
  pose proof (grayscale_loop data _ eq_refl pixels [] D) as Loop.
  cbn [length map flatten app] in Loop. rewrite Loop. clear Loop.
  unfold DocumentDetection.newImageData.
  rewrite flatten_length, length_map, Lp.
  replace (Z.of_nat (4 * Z.to_nat (w * h))) with (w * h * 4)%Z by lia.
  rewrite (proj2 (Z.eqb_neq w 0)), (proj2 (Z.eqb_neq h 0)) by lia. cbn [orb].
  rewrite (proj2 (Z.eqb_neq (w * h * 4) 0)) by nia.
  rewrite Z.mod_mul by lia. cbn [Z.eqb negb orb].
  rewrite Z.div_mul by lia. rewrite (Z.mul_comm w h), Z.mod_mul by lia.
  cbn [Z.eqb negb]. rewrite Z.div_mul by lia. rewrite Z.eqb_refl. reflexivity.
Qed.

(** X25.  On a well-formed image [convertToGrayscale] returns an image of
    the same size whose every pixel has its three colour channels equal to
    one gray byte lying between the least and the greatest channel of the
    input pixel, and its alpha channel unchanged. *)
Theorem convertToGrayscale_pixels img :
  wellFormed img ->
  exists out,
    DocumentDetection.convertToGrayscale img = Some out
    /\ DocumentDetection.width out = DocumentDetection.width img
    /\ DocumentDetection.height out = DocumentDetection.height img
    /\ length (DocumentDetection.data out) = length (DocumentDetection.data img)
    /\ forall p r g b a,
         nth_error (DocumentDetection.data img) (4 * p) = Some r ->
         nth_error (DocumentDetection.data img) (4 * p + 1) = Some g ->
         nth_error (DocumentDetection.data img) (4 * p + 2) = Some b ->
         nth_error (DocumentDetection.data img) (4 * p + 3) = Some a ->
         exists gray,
           nth_error (DocumentDetection.data out) (4 * p) = Some gray
           /\ nth_error (DocumentDetection.data out) (4 * p + 1) = Some gray
           /\ nth_error (DocumentDetection.data out) (4 * p + 2) = Some gray
           /\ nth_error (DocumentDetection.data out) (4 * p + 3) = Some a
           /\ (Z.min r (Z.min g b) <= gray <= Z.max r (Z.max g b))%Z.
Proof.
  intros (W & H & L & Bytes).
  destruct (convertToGrayscale_flatten img W H L) as (pixels & D & E).
  eexists. split; [exact E|]. cbn [DocumentDetection.width DocumentDetection.height
    DocumentDetection.data]. split; [reflexivity|]. split; [reflexivity|].
  split; [now rewrite D, !flatten_length, length_map|].
  intros p r g b a Er Eg Eb Ea. rewrite D in Er, Eg, Eb, Ea, Bytes.
  assert (Lt : (p < length pixels)%nat).
  { assert (nth_error (flatten pixels) (4 * p + 3) <> None) by congruence.
    apply nth_error_Some in H0. rewrite flatten_length in H0. lia. }
  destruct (nth_error pixels p) as [[[[r' g'] b'] a']|] eqn:Ep.
  2:{ apply nth_error_None in Ep. lia. }
  destruct (flatten_nth pixels p r' g' b' a' Ep) as (Er' & Eg' & Eb' & Ea').
  assert (r' = r) by congruence. assert (g' = g) by congruence.
  assert (b' = b) by congruence. assert (a' = a) by congruence. subst r' g' b' a'.
  rewrite Forall_forall in Bytes.
  destruct (grayPixel_between r g b a) as (gray & G & B);
    try (apply Bytes; eapply nth_error_In; eassumption).
  exists gray.
  assert (Eq : nth_error (map grayPixel pixels) p = Some (gray, gray, gray, a)).
  { rewrite nth_error_map, Ep. cbn [option_map]. now rewrite G. }
  destruct (flatten_nth _ p _ _ _ _ Eq) as (G0 & G1 & G2 & G3).
  repeat split; try assumption; apply B.
Qed.

(** X26.  Converting to grayscale twice is converting once: on a well-formed
    image the result of [convertToGrayscale] is a fixed point of it. *)
Theorem convertToGrayscale_idempotent img out :
  wellFormed img ->
  DocumentDetection.convertToGrayscale img = Some out ->
  DocumentDetection.convertToGrayscale out = Some out.
Proof.
  intros (W & H & L & _) E.
  destruct (convertToGrayscale_flatten img W H L) as (pixels & D & E').
  rewrite E' in E. injection E as <-.
  set (out := DocumentDetection.mkImageData _ _ _).
  assert (Lo : Z.of_nat (length (DocumentDetection.data out))
               = (DocumentDetection.width out * DocumentDetection.height out * 4)%Z).
  { cbn. rewrite flatten_length, length_map. rewrite D, flatten_length in L. exact L. }
  destruct (convertToGrayscale_flatten out W H Lo) as (pixels' & D' & ->).
  unfold out. cbn. f_equal. f_equal.
  cbn in D'. rewrite D'.
  assert (Fix : forall ps qs, flatten (map grayPixel ps) = flatten qs ->
                              flatten (map grayPixel qs) = flatten qs).
  { induction ps as [|p ps IH]; intros qs F.
    - destruct qs as [|[[[? ?] ?] ?] qs]; [reflexivity|discriminate].
    - destruct qs as [|q qs].
      + cbn in F. destruct (grayPixel p) as [[[? ?] ?] ?]. discriminate.
      + cbn [map] in F |- *.
        assert (Hd : grayPixel p = q /\ flatten (map grayPixel ps) = flatten qs).
        { destruct (grayPixel p) as [[[r g] b] a], q as [[[r' g'] b'] a'].
          cbn in F. injection F as -> -> -> -> F. now split. }
        destruct Hd as [<- Tl]. rewrite grayPixel_idempotent.
        cbn [flatten]. destruct (grayPixel p) as [[[r g] b] a]. cbn [flatten].
        now rewrite (IH qs Tl). }
  now apply (Fix pixels).
Qed.

(** X27.  Four presses of the rotate button bring the preview back: in any
    state the preview can reach, rotating four times leaves the rotation,
    and the rest of the state, as they were. *)
Theorem four_rotations_restore events :
  let s := DocumentPreview.run events DocumentPreview.initialState in
  DocumentPreview.rotate
    (DocumentPreview.rotate (DocumentPreview.rotate (DocumentPreview.rotate s)))
  = s.
Proof.
  cbv zeta.
  destruct (preview_invariant events DocumentPreview.initialState) as [R _];
    [cbn; auto | cbn; discriminate |].
  destruct (DocumentPreview.run events DocumentPreview.initialState) as [fs z r fit].
  cbn in R. unfold DocumentPreview.rotate. cbn.
  destruct R as [<-|[<-|[<-|[<-|[]]]]]; reflexivity.
Qed.

(** * Instances *)

Lemma app_always_shows_a_screen_witness :
  forallb DocumentScannerApp.carriesImage oneScan = true
  /\ DocumentScannerApp.screen
       (DocumentScannerApp.run oneScan DocumentScannerApp.initialState)
     <> DocumentScannerApp.Nothing.
Proof.
  split; [reflexivity|]. apply (app_always_shows_a_screen oneScan). reflexivity.
Defined.

Lemma unsupported_browser_never_shows_camera_witness :
  DocumentScannerApp.screen
    (DocumentScannerApp.run
       ([] ++ DocumentScannerApp.Mounted false :: [DocumentScannerApp.StartScan])
       DocumentScannerApp.initialState)
  <> DocumentScannerApp.CameraScreen.
Proof.
  apply (unsupported_browser_never_shows_camera [] [DocumentScannerApp.StartScan]).
  - reflexivity.
  - intros supported [H|[]]. discriminate H.
Defined.


Lemma convertToGrayscale_pixels_witness :
  exists out,
    DocumentDetection.convertToGrayscale twoPixels = Some out
    /\ DocumentDetection.width out = DocumentDetection.width twoPixels
    /\ DocumentDetection.height out = DocumentDetection.height twoPixels
    /\ length (DocumentDetection.data out) = length (DocumentDetection.data twoPixels)
    /\ forall p r g b a,
         nth_error (DocumentDetection.data twoPixels) (4 * p) = Some r ->
         nth_error (DocumentDetection.data twoPixels) (4 * p + 1) = Some g ->
         nth_error (DocumentDetection.data twoPixels) (4 * p + 2) = Some b ->
         nth_error (DocumentDetection.data twoPixels) (4 * p + 3) = Some a ->
         exists gray,
           nth_error (DocumentDetection.data out) (4 * p) = Some gray
           /\ nth_error (DocumentDetection.data out) (4 * p + 1) = Some gray
           /\ nth_error (DocumentDetection.data out) (4 * p + 2) = Some gray
           /\ nth_error (DocumentDetection.data out) (4 * p + 3) = Some a
           /\ (Z.min r (Z.min g b) <= gray <= Z.max r (Z.max g b))%Z.
Proof.
  apply (convertToGrayscale_pixels twoPixels).
  unfold wellFormed, twoPixels; cbn; split; [lia|]; split; [lia|]; split; [reflexivity|];
    repeat (constructor; [lia|]); constructor.
Defined.

Lemma convertToGrayscale_idempotent_witness :
  wellFormed twoPixels
  /\ DocumentDetection.convertToGrayscale twoPixels = Some twoPixelsGray
  /\ DocumentDetection.convertToGrayscale twoPixelsGray = Some twoPixelsGray.
Proof.
  split; [|split; [vm_compute; reflexivity|]].
  - unfold wellFormed, twoPixels; cbn; split; [lia|]; split; [lia|]; split; [reflexivity|];
    repeat (constructor; [lia|]); constructor.
  - apply (convertToGrayscale_idempotent twoPixels twoPixelsGray).
    + unfold wellFormed, twoPixels; cbn; split; [lia|]; split; [lia|]; split; [reflexivity|];
    repeat (constructor; [lia|]); constructor.
    + vm_compute. reflexivity.
Defined.
